(** * Healthy Eating Helper: the scoring pipeline

    A shallow embedding of the rules pipeline of the repository:

    - the FastAPI service of [docs/design.md] ("Minimal FastAPI Example"):
      [health_score], [lookup_nutrition] and [analyze];
    - the result view of [web/app/components/ResultCard.tsx]:
      [updateServing], [adjustedNutrition] and [adjustedHealthScore];
    - the macro percentages of [web/app/components/MacroBars.tsx];
    - the serving buttons of the card, the drop handler of the upload card,
      the proxy route [web/app/api/analyze/route.ts] and the upload mutation
      of [web/app/page.tsx].

    Numbers.  Python floats and JavaScript numbers are modelled as exact
    rationals ([Qc], canonical fractions, so that equality is Leibniz
    equality).  NaN and the infinities are outside the model; a division
    whose divisor is zero is the one place where JavaScript leaves the
    finite numbers, and it is modelled as a partial operation ([js_div]).
    The rounding of IEEE arithmetic is left out of the functions above;
    where a property depends on it, the aggregation of the card is also
    given with every operation rounded ([Rounded]), the rounding being a
    parameter, and [Binary64.round] the one of JavaScript's numbers.

    Strings.  Labels are byte strings; case folding maps the ASCII letters
    [A-Z] to [a-z] and leaves every other byte alone. *)

From Stdlib Require Import ZArith QArith Qcanon Qround Lia Lqa Ascii String Permutation Sorted.
From Stdlib Require PrimFloat FloatOps.
From stdpp Require Import gmap strings list pretty.

Local Open Scope Qc_scope.

(** ** Numbers *)

Module Num.

(** A decimal literal of the source, as a canonical fraction. *)
Definition lit (q : Q) : Qc := Q2Qc q.

Definition of_Z (n : Z) : Qc := Q2Qc (inject_Z n).

Definition floor (x : Qc) : Z := Qfloor x.

(** [Math.max] and [Math.min] of JavaScript, [max] and [min] of Python,
    on two finite arguments. *)
Definition max (a b : Qc) : Qc := if bool_decide (a ≤ b) then b else a.
Definition min (a b : Qc) : Qc := if bool_decide (a ≤ b) then a else b.

(** [Math.round]: the nearest integer, a tie going towards +infinity. *)
Definition Math_round (x : Qc) : Z := floor (x + lit 0.5).

(** Python's [round(x)]: the nearest integer, a tie going to the even
    neighbour. *)
Definition py_round (x : Qc) : Z :=
  let f := floor x in
  let r := x - of_Z f in
  if bool_decide (r < lit 0.5) then f
  else if bool_decide (lit 0.5 < r) then (f + 1)%Z
  else if Z.even f then f else (f + 1)%Z.

(** Python's [round(x, 3)]. *)
Definition py_round3 (x : Qc) : Qc := of_Z (py_round (x * of_Z 1000)) / of_Z 1000.

(** JavaScript's [a / b]; [None] stands for the non-finite results
    ([NaN], [Infinity]) of a zero divisor. *)
Definition js_div (a b : Qc) : option Qc :=
  if bool_decide (b = 0) then None else Some (a / b).

(** JavaScript's [x || d] on a number that may be [undefined]:
    [undefined] and [0] are falsy. *)
Definition js_or (x : option Qc) (d : Qc) : Qc :=
  match x with
  | Some v => if bool_decide (v = 0) then d else v
  | None => d
  end.

End Num.

(** ** Strings *)

Module Str.

Definition lower_ascii (c : ascii) : ascii :=
  let n := nat_of_ascii c in
  if (65 <=? n)%nat && (n <=? 90)%nat then ascii_of_nat (n + 32) else c.

Fixpoint lower (s : string) : string :=
  match s with
  | EmptyString => EmptyString
  | String c s' => String (lower_ascii c) (lower s')
  end.

(** [hay.includes(needle)]. *)
Definition includes (needle hay : string) : bool :=
  match String.index 0 needle hay with
  | Some _ => true
  | None => false
  end.

End Str.

(** ** The API service ([docs/design.md], "Minimal FastAPI Example") *)

Module Api.

(** The nutrition dictionaries of [lookup_nutrition] and the [totals]
    dictionary of [analyze]: the same seven keys, always all present. *)
Record Dict := mkDict {
  calories : Qc;
  protein_g : Qc;
  carbs_g : Qc;
  fat_g : Qc;
  fiber_g : Qc;
  sat_fat_g : Qc;
  added_sugar_g : Qc
}.

Definition dict (c p cb f fb sf su : Z) : Dict :=
  mkDict (Num.of_Z c) (Num.of_Z p) (Num.of_Z cb) (Num.of_Z f)
         (Num.of_Z fb) (Num.of_Z sf) (Num.of_Z su).

Definition labels_map : gmap string string :=
  {[ "fries" := "french fries"; "cola" := "soda" ]}.

Definition health_score (total : Dict) : Z :=
  let cal := calories total in
  let sat := sat_fat_g total in
  let sug := added_sugar_g total in
  let fib := fiber_g total in
  let pro := protein_g total in
  let score :=
    Num.of_Z 100 - Num.lit 0.02 * Num.max 0 (cal - Num.of_Z 500)
      - Num.lit 1.2 * sat - Num.lit 0.2 * sug
      + Num.lit 0.8 * fib + Num.lit 0.5 * pro in
  Z.max 0 (Z.min 100 (Num.py_round score)).

Definition table : gmap string Dict :=
  {[ "pizza" := dict 285 12 36 10 2 4 2;
     "salad" := dict 150 4 10 10 3 2 1;
     "soda" := dict 150 0 39 0 0 0 39;
     "french fries" := dict 365 4 48 17 4 3 0 ]}.

(** The default of [table.get] in [lookup_nutrition]. *)
Definition generic : Dict := dict 250 6 30 9 2 2 2.

Definition lookup_nutrition (name : string) : Dict :=
  let canonical := Str.lower (default name (labels_map !! name)) in
  default generic (table !! canonical).

(** One entry of the classifier's output. *)
Record Prediction := mkPrediction {
  p_label : string;
  p_score : Qc
}.

Record Item := mkItem {
  label : string;
  confidence : Qc;
  servings : Qc;
  nutrition : Dict
}.

Record Response := mkResponse {
  total_calories : Qc;
  r_health_score : Z;
  items : list Item;
  tips : list string
}.

(** What [analyze] can raise: the [HTTPException] of the content-type
    check, and the [IndexError] of [preds[0]] on an empty list. *)
Inductive Error :=
| HTTPException (status_code : Z) (detail : string)
| IndexError.

#[global] Instance Dict_eq_dec : EqDecision Dict.
Proof. solve_decision. Defined.
#[global] Instance Prediction_eq_dec : EqDecision Prediction.
Proof. solve_decision. Defined.
#[global] Instance Item_eq_dec : EqDecision Item.
Proof. solve_decision. Defined.
#[global] Instance Response_eq_dec : EqDecision Response.
Proof. solve_decision. Defined.
#[global] Instance Error_eq_dec : EqDecision Error.
Proof. solve_decision. Defined.

Definition allowed_types : list string :=
  ["image/jpeg"; "image/png"; "image/webp"].

Definition zero_totals : Dict := dict 0 0 0 0 0 0 0.

(** [totals[k] += nut.get(k, 0)] for every key [k] of [totals]. *)
Definition add_totals (totals nut : Dict) : Dict :=
  mkDict (calories totals + calories nut)
         (protein_g totals + protein_g nut)
         (carbs_g totals + carbs_g nut)
         (fat_g totals + fat_g nut)
         (fiber_g totals + fiber_g nut)
         (sat_fat_g totals + sat_fat_g nut)
         (added_sugar_g totals + added_sugar_g nut).

(** The multi-label heuristic: [preds] is the classifier's output cut to
    its first five entries, [p_main] the score of the first of them. *)
Definition keep (p_main : Qc) (preds : list Prediction) : list Prediction :=
  take 3 (filter (λ p, Num.max (Num.lit 0.15) (p_main * Num.lit 0.6) ≤ p_score p) preds).

(** One turn of the loop [for p in kept]. *)
Definition loop_body (st : list Item * Dict) (p : Prediction) : list Item * Dict :=
  let name := Str.lower (p_label p) in
  let nut := lookup_nutrition name in
  (st.1 ++ [mkItem name (Num.py_round3 (p_score p)) 1 nut], add_totals st.2 nut).

Definition make_tips (totals : Dict) : list string :=
  (if bool_decide (Num.of_Z 20 ≤ added_sugar_g totals)
   then ["Swap sugary drinks for water or unsweetened tea."] else [])
  ++ (if bool_decide (fiber_g totals < Num.of_Z 5)
      then ["Add veggies or whole grains to increase fiber."] else [])
  ++ (if bool_decide (protein_g totals < Num.of_Z 15)
      then ["Add a lean protein for satiety."] else []).

(** [analyze], from the content type of the upload and the classifier's
    answer [clf_img] for the image. *)
Definition analyze (content_type : string) (clf_img : list Prediction)
  : Error + Response :=
  if negb (bool_decide (content_type ∈ allowed_types))
  then inl (HTTPException 400 "Unsupported image type")
  else
    let preds := take 5 clf_img in
    match preds with
    | [] => inl IndexError
    | p0 :: _ =>
      let p_main := p_score p0 in
      let kept := keep p_main preds in
      let '(items, totals) := foldl loop_body ([], zero_totals) kept in
      let score := health_score totals in
      inr (mkResponse (calories totals) score items (make_tips totals))
    end.

End Api.

(** ** The result view ([web/app/components/ResultCard.tsx]) *)

Module ResultCard.

Record NutritionInfo := mkNutritionInfo {
  calories : Qc;
  protein_g : Qc;
  carbs_g : Qc;
  fat_g : Qc;
  fiber_g : option Qc;
  sat_fat_g : option Qc;
  added_sugar_g : option Qc
}.

Record FoodItem := mkFoodItem {
  label : string;
  confidence : Qc;
  servings : Qc;
  nutrition : NutritionInfo
}.

(** [health_score] is a [number] in the source; the API sends an integer. *)
Record AnalysisResult := mkAnalysisResult {
  total_calories : Qc;
  health_score : Z;
  items : list FoodItem;
  tips : list string
}.

(** The accumulator of the [reduce] in [adjustedNutrition]. *)
Record Totals := mkTotals {
  t_calories : Qc;
  t_protein_g : Qc;
  t_carbs_g : Qc;
  t_fat_g : Qc;
  t_fiber_g : Qc;
  t_sat_fat_g : Qc;
  t_added_sugar_g : Qc
}.

(** [Array.prototype.reduce] with the index passed to the callback;
    [forEach] with a variable updated in its body is the same traversal. *)
Fixpoint reduce {A B : Type} (f : B → A → nat → B) (l : list A) (index : nat) (acc : B) : B :=
  match l with
  | [] => acc
  | x :: l' => reduce f l' (S index) (f acc x index)
  end.

(** The initial state of [servingAdjustments]: [initial[index] =
    result.items[index].servings]. *)
Definition initialAdjustments (result : AnalysisResult) : gmap nat Qc :=
  reduce (λ initial item index, <[index := servings item]> initial) (items result) 0 ∅.

Definition updateServing (itemIndex : nat) (newServing : Qc) (prev : gmap nat Qc) : gmap nat Qc :=
  let clamped := Num.max (Num.lit 0.25) (Num.min (Num.of_Z 5) newServing) in
  <[itemIndex := clamped]> prev.

(** [servingAdjustments[index] || item.servings]. *)
Definition servingMultiplier (servingAdjustments : gmap nat Qc) (item : FoodItem) (index : nat) : Qc :=
  Num.js_or (servingAdjustments !! index) (servings item).

(** The callback of the [reduce] in [adjustedNutrition]. *)
Definition addItem (servingAdjustments : gmap nat Qc) (total : Totals) (item : FoodItem) (index : nat) : Totals :=
  let servingMultiplier := servingMultiplier servingAdjustments item index in
  mkTotals
    (t_calories total + calories (nutrition item) * servingMultiplier)
    (t_protein_g total + protein_g (nutrition item) * servingMultiplier)
    (t_carbs_g total + carbs_g (nutrition item) * servingMultiplier)
    (t_fat_g total + fat_g (nutrition item) * servingMultiplier)
    (t_fiber_g total + Num.js_or (fiber_g (nutrition item)) 0 * servingMultiplier)
    (t_sat_fat_g total + Num.js_or (sat_fat_g (nutrition item)) 0 * servingMultiplier)
    (t_added_sugar_g total + Num.js_or (added_sugar_g (nutrition item)) 0 * servingMultiplier).

Definition adjustedNutrition (result : AnalysisResult) (servingAdjustments : gmap nat Qc) : Totals :=
  reduce (addItem servingAdjustments) (items result) 0 (mkTotals 0 0 0 0 0 0 0).

(** The body of the [forEach] in [adjustedHealthScore]. *)
Definition caution (servingAdjustments : gmap nat Qc) (score : Qc) (item : FoodItem) (index : nat) : Qc :=
  let servingMultiplier := servingMultiplier servingAdjustments item index in
  let label := Str.lower (label item) in
  if Str.includes "soda" label || Str.includes "cola" label
  then score - Num.of_Z 10 * servingMultiplier
  else if Str.includes "fries" label || Str.includes "chips" label
  then score - Num.of_Z 8 * servingMultiplier
  else if Str.includes "burger" label then score - Num.of_Z 5 * servingMultiplier
  else if Str.includes "pizza" label then score - Num.of_Z 3 * servingMultiplier
  else if Str.includes "dessert" label then score - Num.of_Z 7 * servingMultiplier
  else score.

Definition adjustedHealthScore (result : AnalysisResult) (servingAdjustments : gmap nat Qc) : Z :=
  let n := adjustedNutrition result servingAdjustments in
  let score :=
    Num.of_Z 100
      - Num.lit 0.02 * Num.max 0 (t_calories n - Num.of_Z 500)
      - Num.lit 1.2 * t_sat_fat_g n
      - Num.lit 0.2 * t_added_sugar_g n
      + Num.lit 0.8 * t_fiber_g n
      + Num.lit 0.5 * t_protein_g n in
  let score := reduce (caution servingAdjustments) (items result) 0 score in
  Z.max 0 (Z.min 100 (Num.Math_round score)).

(** What the card shows for a result and the current adjustments: the
    recomputed totals and score, each item's current serving, the tips
    section, which renders [result.tips], the badge of the header, which
    renders [result.health_score], and the note "Adjusted from original",
    shown with [result.health_score] and [result.total_calories] when the
    recomputed score is not [result.health_score]. *)
Record View := mkView {
  v_nutrition : Totals;
  v_total_calories : Z;
  v_health_score : Z;
  v_servings : list Qc;
  v_tips : list string;
  v_badge : Z;
  v_original : option (Z * Qc)
}.

#[global] Instance NutritionInfo_eq_dec : EqDecision NutritionInfo.
Proof. solve_decision. Defined.
#[global] Instance FoodItem_eq_dec : EqDecision FoodItem.
Proof. solve_decision. Defined.
#[global] Instance AnalysisResult_eq_dec : EqDecision AnalysisResult.
Proof. solve_decision. Defined.
#[global] Instance Totals_eq_dec : EqDecision Totals.
Proof. solve_decision. Defined.
#[global] Instance View_eq_dec : EqDecision View.
Proof. solve_decision. Defined.

Definition render (result : AnalysisResult) (servingAdjustments : gmap nat Qc) : View :=
  mkView
    (adjustedNutrition result servingAdjustments)
    (Num.Math_round (t_calories (adjustedNutrition result servingAdjustments)))
    (adjustedHealthScore result servingAdjustments)
    (imap (λ index item, servingMultiplier servingAdjustments item index) (items result))
    (tips result)
    (health_score result)
    (if bool_decide (adjustedHealthScore result servingAdjustments ≠ health_score result)
     then Some (health_score result, total_calories result)
     else None).

(** The JSON body of the API's answer, as the card's props read it. *)
Definition of_response (r : Api.Response) : AnalysisResult :=
  mkAnalysisResult
    (Api.total_calories r)
    (Api.r_health_score r)
    (map (λ it,
            let n := Api.nutrition it in
            mkFoodItem (Api.label it) (Api.confidence it) (Api.servings it)
              (mkNutritionInfo (Api.calories n) (Api.protein_g n) (Api.carbs_g n) (Api.fat_g n)
                 (Some (Api.fiber_g n)) (Some (Api.sat_fat_g n)) (Some (Api.added_sugar_g n))))
         (Api.items r))
    (Api.tips r).

End ResultCard.

(** ** The macro bars ([web/app/components/MacroBars.tsx]) *)

Module MacroBars.

Record MacroData := mkMacroData {
  calories : Qc;
  protein_g : Qc;
  carbs_g : Qc;
  fat_g : Qc;
  fiber_g : option Qc
}.

Definition totalMacroCals (nutrition : MacroData) : Qc :=
  let proteinCals := protein_g nutrition * Num.of_Z 4 in
  let carbsCals := carbs_g nutrition * Num.of_Z 4 in
  let fatCals := fat_g nutrition * Num.of_Z 9 in
  proteinCals + carbsCals + fatCals.

(** [totalMacroCals > 0 ? (cals / totalMacroCals) * 100 : 0]. *)
Definition percent (cals totalMacroCals : Qc) : option Qc :=
  if bool_decide (0 < totalMacroCals)
  then (λ q, q * Num.of_Z 100) <$> Num.js_div cals totalMacroCals
  else Some 0.

Definition proteinPercent (nutrition : MacroData) : option Qc :=
  percent (protein_g nutrition * Num.of_Z 4) (totalMacroCals nutrition).

Definition carbsPercent (nutrition : MacroData) : option Qc :=
  percent (carbs_g nutrition * Num.of_Z 4) (totalMacroCals nutrition).

Definition fatPercent (nutrition : MacroData) : option Qc :=
  percent (fat_g nutrition * Num.of_Z 9) (totalMacroCals nutrition).

End MacroBars.

(** ** The specification's wording

    The score, the aggregate and the notions of the specification, written
    from its text, for comparison with the functions of the code. *)

Module Spec.

(** The caution list, in priority order: the substrings of a category and
    its penalty per serving. *)
Definition caution_list : list (list string * Z) :=
  [ (["soda"; "cola"], 10%Z);
    (["fries"; "chips"], 8%Z);
    (["burger"], 5%Z);
    (["pizza"], 3%Z);
    (["dessert"], 7%Z) ].

(** Case-insensitive substring match of a label against a category. *)
Definition matches (label : string) (category : list string * Z) : bool :=
  existsb (λ word, Str.includes word (Str.lower label)) category.1.

(** The penalty of one item: that of the first category that matches, times
    the item's serving multiplier; nothing when no category matches. *)
Definition penalty (label : string) (mult : Qc) : Qc :=
  match List.find (matches label) caution_list with
  | Some category => Num.of_Z category.2 * mult
  | None => 0
  end.

Definition base (calories sat_fat_g added_sugar_g fiber_g protein_g : Qc) : Qc :=
  Num.of_Z 100
    - Num.lit 0.02 * Num.max 0 (calories - Num.of_Z 500)
    - Num.lit 1.2 * sat_fat_g
    - Num.lit 0.2 * added_sugar_g
    + Num.lit 0.8 * fiber_g
    + Num.lit 0.5 * protein_g.

Definition clamp (x : Qc) : Qc := Num.max 0 (Num.min (Num.of_Z 100) x).

(** The sum of a list of numbers. *)
Definition sum (l : list Qc) : Qc := foldr Qcplus 0 l.

(** The raw score: the base score of the totals less the penalties of
    all items, each given with its serving multiplier. *)
Definition raw_score (calories sat_fat_g added_sugar_g fiber_g protein_g : Qc)
    (labelled : list (string * Qc)) : Qc :=
  base calories sat_fat_g added_sugar_g fiber_g protein_g
    - sum (map (λ lm, penalty lm.1 lm.2) labelled).

(** A detected item: a food item of the result with its current serving
    multiplier. *)
Definition detected (result : ResultCard.AnalysisResult) (servingAdjustments : gmap nat Qc)
  : list (ResultCard.FoodItem * Qc) :=
  imap (λ index item, (item, ResultCard.servingMultiplier servingAdjustments item index))
       (ResultCard.items result).

(** The aggregate of a field: the sum over the items of the field times the
    serving multiplier. *)
Definition total (field : ResultCard.NutritionInfo → Qc) (l : list (ResultCard.FoodItem * Qc)) : Qc :=
  sum (map (λ im, field (ResultCard.nutrition im.1) * im.2) l).

Definition aggregate (l : list (ResultCard.FoodItem * Qc)) : ResultCard.Totals :=
  ResultCard.mkTotals
    (total ResultCard.calories l)
    (total ResultCard.protein_g l)
    (total ResultCard.carbs_g l)
    (total ResultCard.fat_g l)
    (total (λ n, Num.js_or (ResultCard.fiber_g n) 0) l)
    (total (λ n, Num.js_or (ResultCard.sat_fat_g n) 0) l)
    (total (λ n, Num.js_or (ResultCard.added_sugar_g n) 0) l).

(** The aggregate of a field over the items of an array that starts at
    index [i] of the result's items. *)
Definition weighted (servingAdjustments : gmap nat Qc) (field : ResultCard.NutritionInfo → Qc)
    (i : nat) (l : list ResultCard.FoodItem) : Qc :=
  sum (imap (λ j item, field (ResultCard.nutrition item)
                       * ResultCard.servingMultiplier servingAdjustments item (i + j)) l).


(** A prediction list in the classifier's order: no score exceeds an
    earlier one. *)
Definition descending (preds : list Api.Prediction) : Prop :=
  StronglySorted (λ p q, Api.p_score q ≤ Api.p_score p) preds.

(** A history of edits of one session, oldest first, replayed on a state of
    the adjustments. *)
Definition replay (edits : list (nat * Qc)) (servingAdjustments : gmap nat Qc) : gmap nat Qc :=
  foldl (λ adj e, ResultCard.updateServing e.1 e.2 adj) servingAdjustments edits.

End Spec.

(** ** The scenario of the specification *)

Module Scenario.

Definition prediction (label : string) (score : Q) : Api.Prediction :=
  Api.mkPrediction label (Num.lit score).

Definition preds : list Api.Prediction :=
  [prediction "pizza" 0.91; prediction "salad" 0.55; prediction "soda" 0.20].

Definition pizza : Api.Dict := Api.dict 285 12 36 10 2 4 2.
Definition salad : Api.Dict := Api.dict 150 4 10 10 3 2 1.

Definition response : Api.Response :=
  Api.mkResponse (Num.of_Z 435) 100
    [ Api.mkItem "pizza" (Num.lit 0.91) 1 pizza;
      Api.mkItem "salad" (Num.lit 0.55) 1 salad ]
    [].

Definition result : ResultCard.AnalysisResult := ResultCard.of_response response.

(** The same result with its two items in the other order. *)
Definition result_swapped : ResultCard.AnalysisResult :=
  ResultCard.mkAnalysisResult
    (ResultCard.total_calories result) (ResultCard.health_score result)
    (reverse (ResultCard.items result)) (ResultCard.tips result).

(** Two edit histories of one session that end with the same servings of
    pizza and salad; the second also writes an index that has no item. *)
Definition history1 : list (nat * Qc) :=
  [(0%nat, Num.of_Z 2); (1%nat, Num.of_Z 3)].
Definition history2 : list (nat * Qc) :=
  [(1%nat, Num.of_Z 3); (0%nat, Num.of_Z 9); (5%nat, 1); (0%nat, Num.of_Z 2)].

(** A classifier answer whose best score is below the floor of 0.15. *)
Definition faint : list Api.Prediction := [prediction "pizza" 0.10].

(** The service's answer to it: no item, a perfect score. *)
Definition no_items : Api.Response :=
  Api.mkResponse 0 100 []
    [ "Add veggies or whole grains to increase fiber.";
      "Add a lean protein for satiety." ].

(** A meal of one slice of pizza, as the service answers it. *)
Definition pizza_only : list Api.Prediction := [prediction "pizza" 0.91].

Definition pizza_only_response : Api.Response :=
  Api.mkResponse (Num.of_Z 285) 100
    [ Api.mkItem "pizza" (Num.lit 0.91) 1 pizza ]
    [ "Add veggies or whole grains to increase fiber.";
      "Add a lean protein for satiety." ].

End Scenario.

(** ** Notions for the properties of the service *)

Module Service.

(** The item that one turn of the loop of [analyze] appends for a kept
    prediction. *)
Definition item_of (p : Api.Prediction) : Api.Item :=
  let name := Str.lower (Api.p_label p) in
  Api.mkItem name (Num.py_round3 (Api.p_score p)) 1 (Api.lookup_nutrition name).

(** The sums of the nutrition of a list of items, key by key. *)
Definition totals_of (items : list Api.Item) : Api.Dict :=
  let column (key : Api.Dict → Qc) := Spec.sum (map (λ it, key (Api.nutrition it)) items) in
  Api.mkDict (column Api.calories) (column Api.protein_g) (column Api.carbs_g)
             (column Api.fat_g) (column Api.fiber_g) (column Api.sat_fat_g)
             (column Api.added_sugar_g).

(** One total is at least as healthy as another: no more calories,
    saturated fat and added sugar, no less fiber and protein. *)
Definition healthier (total total' : Api.Dict) : Prop :=
  Api.calories total' ≤ Api.calories total
  ∧ Api.sat_fat_g total' ≤ Api.sat_fat_g total
  ∧ Api.added_sugar_g total' ≤ Api.added_sugar_g total
  ∧ Api.fiber_g total ≤ Api.fiber_g total'
  ∧ Api.protein_g total ≤ Api.protein_g total'.

End Service.

(** ** The serving controls of the card ([web/app/components/ResultCard.tsx]) *)

Module Controls.

Import ResultCard.

(** [currentServing] of the item list. *)
Definition currentServing (servingAdjustments : gmap nat Qc) (item : FoodItem) (index : nat) : Qc :=
  Num.js_or (servingAdjustments !! index) (servings item).

(** [onClick] of the "Decrease serving" button. *)
Definition decrease (servingAdjustments : gmap nat Qc) (item : FoodItem) (index : nat) : gmap nat Qc :=
  updateServing index (currentServing servingAdjustments item index - Num.lit 0.25) servingAdjustments.

(** [onClick] of the "Increase serving" button. *)
Definition increase (servingAdjustments : gmap nat Qc) (item : FoodItem) (index : nat) : gmap nat Qc :=
  updateServing index (currentServing servingAdjustments item index + Num.lit 0.25) servingAdjustments.

(** [disabled] of the two buttons. *)
Definition decreaseDisabled (servingAdjustments : gmap nat Qc) (item : FoodItem) (index : nat) : bool :=
  bool_decide (currentServing servingAdjustments item index ≤ Num.lit 0.25).

Definition increaseDisabled (servingAdjustments : gmap nat Qc) (item : FoodItem) (index : nat) : bool :=
  bool_decide (Num.of_Z 5 ≤ currentServing servingAdjustments item index).


(** The totals of the service, as the card's record. *)
Definition of_dict (d : Api.Dict) : Totals :=
  mkTotals (Api.calories d) (Api.protein_g d) (Api.carbs_g d) (Api.fat_g d)
           (Api.fiber_g d) (Api.sat_fat_g d) (Api.added_sugar_g d).

End Controls.

(** ** The bars of the macro breakdown ([web/app/components/MacroBars.tsx]) *)

Module Bars.

Import MacroBars.

(** The width of a macro's bar, in percent: [Math.min(macro.percentage, 100)]. *)
Definition width (percentage : Qc) : Qc := Num.min percentage (Num.of_Z 100).

End Bars.

(** ** Sample items *)

Module Samples.

(** The salad of the scenario, as the card receives it. *)
Definition salad : ResultCard.FoodItem :=
  ResultCard.mkFoodItem "salad" (Num.lit 0.55) 1
    (ResultCard.mkNutritionInfo (Num.of_Z 150) (Num.of_Z 4) (Num.of_Z 10) (Num.of_Z 10)
       (Some (Num.of_Z 3)) (Some (Num.of_Z 2)) (Some (Num.of_Z 1))).

(** The pizza of the scenario, as the card receives it. *)
Definition pizza : ResultCard.FoodItem :=
  ResultCard.mkFoodItem "pizza" (Num.lit 0.91) 1
    (ResultCard.mkNutritionInfo (Num.of_Z 285) (Num.of_Z 12) (Num.of_Z 36) (Num.of_Z 10)
       (Some (Num.of_Z 2)) (Some (Num.of_Z 4)) (Some (Num.of_Z 2))).

End Samples.

(** ** HTTP, as the web application sees it *)

Module Http.

(** A parsed JSON value. *)
Unset Elimination Schemes.
Inductive Json :=
| JNull
| JBool (b : bool)
| JNum (n : Qc)
| JStr (s : string)
| JArr (elements : list Json)
| JObj (fields : list (string * Json)).
Set Elimination Schemes.

(** A thrown value: whether it is an [Error], and its message. *)
Record Exn := mkExn {
  instanceofError : bool;
  message : string
}.

(** The outcome of [await fetch(...)]: it throws, or it resolves to a
    response, whose [json()] parses the body or rejects. *)
Inductive Fetched :=
| FetchThrows (error : Exn)
| Responds (status : N) (body : Exn + Json).

(** [response.ok]. *)
Definition ok (status : N) : bool := (200 <=? status)%N && (status <=? 299)%N.

(** The statuses a response with a body may have: [NextResponse.json]
    throws a [RangeError] for a status outside 200..599 and a [TypeError]
    for a status of a response that has no body. *)
Definition body_status (status : N) : bool :=
  (200 <=? status)%N && (status <=? 599)%N
  && negb (bool_decide (status ∈ [204; 205; 304]%N)).

(** The value of the last field named [key] of an object's field list. *)
Fixpoint lookup_last (key : string) (fields : list (string * Json)) : option Json :=
  match fields with
  | [] => None
  | (k, v) :: rest =>
    match lookup_last key rest with
    | Some v' => Some v'
    | None => if bool_decide (k = key) then Some v else None
    end
  end.

(** [value.key] for the keys [detail] and [error]: a [TypeError] on [null],
    [undefined] on a value that is no object or has no such field. *)
Definition get (value : Json) (key : string) : Exn + option Json :=
  match value with
  | JNull =>
    inl (mkExn true ("Cannot read properties of null (reading '" +:+ key +:+ "')"))
  | JObj fields => inr (lookup_last key fields)
  | _ => inr None
  end.

(** Truthiness of a value that may be [undefined]. *)
Definition truthy (value : option Json) : bool :=
  match value with
  | None => false
  | Some JNull => false
  | Some (JBool b) => b
  | Some (JNum n) => negb (bool_decide (n = 0))
  | Some (JStr s) => negb (bool_decide (s = ""))
  | Some (JArr _) => true
  | Some (JObj _) => true
  end.

(** [await response.json().catch(() => ({ error: 'Unknown error' }))]. *)
Definition json_or_unknown (body : Exn + Json) : Json :=
  match body with
  | inl _ => JObj [("error", JStr "Unknown error")]
  | inr value => value
  end.

(** [errorData[first] || errorData[second] || fallback]. *)
Definition first_truthy (errorData : Json) (first second : string) (fallback : Json)
  : Exn + Json :=
  match get errorData first with
  | inl e => inl e
  | inr a =>
    if truthy a then inr (default JNull a)
    else
      match get errorData second with
      | inl e => inl e
      | inr b => if truthy b then inr (default JNull b) else inr fallback
      end
  end.

End Http.

(** ** The proxy route ([web/app/api/analyze/route.ts]) *)

Module Route.

Import Http.

Record File := mkFile {
  name : string;
  type : string;
  size : N
}.

Record NextResponse := mkNextResponse {
  status : N;
  json : Json;
  headers : list (string * string)
}.

Definition allowedTypes : list string := ["image/jpeg"; "image/png"; "image/webp"].

Definition maxSize : N := 8 * 1024 * 1024.

(** [NextResponse.json({ error }, { status })]. *)
Definition error_json (error : Json) (status : N) : NextResponse :=
  mkNextResponse status (JObj [("error", error)]) [].

(** The [catch] block of [POST]. *)
Definition caught (error : Exn) : NextResponse :=
  if instanceofError error && Str.includes "fetch" (message error)
  then error_json
         (JStr "Unable to connect to analysis service. Please ensure the API is running.") 503
  else error_json (JStr "Internal server error") 500.

(** [POST], from the outcome of [request.formData()] with its [image]
    field and the backend's answer to a forwarded image; the second
    component lists the images forwarded to the backend.  The status of an
    error answer is taken to be one that [NextResponse.json] accepts
    ([body_status]); for another one, such as 304, the call throws and the
    [catch] block answers. *)
Definition POST (request : Exn + option File) (backend : File → Fetched)
  : NextResponse * list File :=
  match request with
  | inl error => (caught error, [])
  | inr None => (error_json (JStr "No image file provided") 400, [])
  | inr (Some image) =>
    if negb (bool_decide (type image ∈ allowedTypes))
    then (error_json
            (JStr ("Unsupported file type: " +:+ type image
                   +:+ ". Supported: JPEG, PNG, WebP")) 400, [])
    else if bool_decide (maxSize < size image)%N
    then (error_json
            (JStr ("File too large: " +:+ pretty (size image)
                   +:+ " bytes. Maximum size: " +:+ pretty maxSize +:+ " bytes")) 400, [])
    else
      match backend image with
      | FetchThrows error => (caught error, [image])
      | Responds status body =>
        if negb (ok status)
        then
          match first_truthy (json_or_unknown body) "detail" "error" (JStr "Analysis failed") with
          | inl error => (caught error, [image])
          | inr error => (error_json error status, [image])
          end
        else
          match body with
          | inl error => (caught error, [image])
          | inr result =>
            (mkNextResponse 200 result [("Cache-Control", "no-store, max-age=0")], [image])
          end
      end
  end.

End Route.

(** ** The upload mutation of the page ([web/app/page.tsx]) *)

Module Page.

Import Http.

(** How [mutationFn] ends: with the parsed answer, or rejected with an
    error made from a value ([new Error(value)]) or with a thrown one. *)
Inductive Outcome :=
| Resolved (data : Json)
| RejectedWith (value : Json)
| Rejected (error : Exn).

(** The two endpoints the mutation may fetch. *)
Inductive Endpoint := Direct | Proxy.

(** [mutationFn], from what each endpoint answers to the upload; the second
    component lists the endpoints fetched, in order. *)
Definition mutationFn (fetch : Endpoint → Fetched) : Outcome * list Endpoint :=
  let finish (response : N * (Exn + Json)) (fetched : list Endpoint) :=
    let '(status, body) := response in
    if negb (ok status)
    then
      match first_truthy (json_or_unknown body) "error" "detail"
              (JStr ("HTTP " +:+ pretty status)) with
      | inl error => (Rejected error, fetched)
      | inr value => (RejectedWith value, fetched)
      end
    else
      match body with
      | inl error => (Rejected error, fetched)
      | inr data => (Resolved data, fetched)
      end in
  match fetch Direct with
  | Responds status body => finish (status, body) [Direct]
  | FetchThrows _ =>
    match fetch Proxy with
    | Responds status body => finish (status, body) [Direct; Proxy]
    | FetchThrows error => (Rejected error, [Direct; Proxy])
    end
  end.


End Page.

(** ** The upload card ([UploadCard], in the listing of
    [web/app/components/ResultCard.tsx]) *)

Module UploadCard.

(** A file the dropzone rejected, with the codes of its errors. *)
Record Rejection := mkRejection {
  file : Route.File;
  errors : list string
}.

(** The state of the card: the preview URL, the selected file and the
    error message. *)
Record State := mkState {
  preview : option string;
  selectedFile : option Route.File;
  error : option string
}.

(** [onDrop]; [createObjectURL] is the browser's; the second component
    lists the calls of [onFileSelect]. *)
Definition onDrop (createObjectURL : Route.File → string)
    (acceptedFiles : list Route.File) (rejectedFiles : list Rejection) (st : State)
  : State * list Route.File :=
  let st := mkState (preview st) (selectedFile st) None in
  match rejectedFiles with
  | rejection :: _ =>
    let code := head (errors rejection) in
    if bool_decide (code = Some "file-too-large")
    then (mkState (preview st) (selectedFile st)
            (Some "Image too large. Please select an image under 8MB."), [])
    else if bool_decide (code = Some "file-invalid-type")
    then (mkState (preview st) (selectedFile st)
            (Some "Invalid file type. Please select a JPEG, PNG, or WebP image."), [])
    else (mkState (preview st) (selectedFile st)
            (Some "Invalid file. Please try another image."), [])
  | [] =>
    match acceptedFiles with
    | file :: _ => (mkState (Some (createObjectURL file)) (Some file) (error st), [file])
    | [] => (st, [])
    end
  end.

End UploadCard.

(** ** Binary64 numbers

    JavaScript's numbers are the binary64 numbers of IEEE 754: an
    arithmetic operation returns the exact result rounded to the nearest
    number with a mantissa of 53 bits, a tie going to the even mantissa.
    The exponents go down to the subnormal numbers; a result beyond the
    largest finite number is not modelled. *)

Module Binary64.

Definition pow2 (e : Z) : Qc :=
  if (0 <=? e)%Z then Num.of_Z (2 ^ e) else 1 / Num.of_Z (2 ^ (- e)).

(** The binade of a positive number: the [l] with [2^l <= x < 2^(l+1)]. *)
Definition ilog2 (x : Qc) : Z :=
  let l := (Z.log2 (Qnum x) - Z.log2 (Zpos (Qden x)))%Z in
  if bool_decide (x < pow2 l) then (l - 1)%Z else l.

(** The binary64 number nearest to [x]. *)
Definition round (x : Qc) : Qc :=
  if bool_decide (x = 0) then 0
  else
    let magnitude := if bool_decide (x < 0) then - x else x in
    let e := Z.max (-1074) (ilog2 magnitude - 52) in
    Num.of_Z (Num.py_round (x / pow2 e)) * pow2 e.

(** A decimal number of a program or of a JSON text, as it is read. *)
Definition number (q : Q) : Qc := round (Num.lit q).

End Binary64.

(** The binary64 numbers of Rocq's kernel, against which [Binary64.round]
    is checked. *)

Module Float64.

(** The value of a finite number. *)
Definition value (f : PrimFloat.float) : option Qc :=
  match FloatOps.Prim2SF f with
  | SpecFloat.S754_zero _ => Some 0
  | SpecFloat.S754_finite sign mantissa e =>
    Some ((if sign then - Num.of_Z (Zpos mantissa) else Num.of_Z (Zpos mantissa))
          * Binary64.pow2 e)
  | _ => None
  end.

End Float64.

(** ** The aggregation of the card, with rounded arithmetic *)

Module Rounded.

Import ResultCard.

Section Arithmetic.

(** The rounding of every addition and multiplication: [Binary64.round]
    for the card as it runs, the identity for exact arithmetic. *)
Variable rnd : Qc → Qc.

Definition add (a b : Qc) : Qc := rnd (a + b).
Definition mul (a b : Qc) : Qc := rnd (a * b).

(** The callback of the [reduce] in [adjustedNutrition]. *)
Definition addItem (servingAdjustments : gmap nat Qc) (total : Totals) (item : FoodItem) (index : nat) : Totals :=
  let servingMultiplier := servingMultiplier servingAdjustments item index in
  mkTotals
    (add (t_calories total) (mul (calories (nutrition item)) servingMultiplier))
    (add (t_protein_g total) (mul (protein_g (nutrition item)) servingMultiplier))
    (add (t_carbs_g total) (mul (carbs_g (nutrition item)) servingMultiplier))
    (add (t_fat_g total) (mul (fat_g (nutrition item)) servingMultiplier))
    (add (t_fiber_g total) (mul (Num.js_or (fiber_g (nutrition item)) 0) servingMultiplier))
    (add (t_sat_fat_g total) (mul (Num.js_or (sat_fat_g (nutrition item)) 0) servingMultiplier))
    (add (t_added_sugar_g total) (mul (Num.js_or (added_sugar_g (nutrition item)) 0) servingMultiplier)).

Definition adjustedNutrition (result : AnalysisResult) (servingAdjustments : gmap nat Qc) : Totals :=
  reduce (addItem servingAdjustments) (items result) 0 (mkTotals 0 0 0 0 0 0 0).

Definition sub (a b : Qc) : Qc := rnd (a - b).

(** A decimal literal of the source. *)
Definition lit (q : Q) : Qc := rnd (Num.lit q).

(** The body of the [forEach] in [adjustedHealthScore]. *)
Definition caution (servingAdjustments : gmap nat Qc) (score : Qc) (item : FoodItem) (index : nat) : Qc :=
  let servingMultiplier := servingMultiplier servingAdjustments item index in
  let label := Str.lower (label item) in
  if Str.includes "soda" label || Str.includes "cola" label
  then sub score (mul (Num.of_Z 10) servingMultiplier)
  else if Str.includes "fries" label || Str.includes "chips" label
  then sub score (mul (Num.of_Z 8) servingMultiplier)
  else if Str.includes "burger" label then sub score (mul (Num.of_Z 5) servingMultiplier)
  else if Str.includes "pizza" label then sub score (mul (Num.of_Z 3) servingMultiplier)
  else if Str.includes "dessert" label then sub score (mul (Num.of_Z 7) servingMultiplier)
  else score.

Definition adjustedHealthScore (result : AnalysisResult) (servingAdjustments : gmap nat Qc) : Z :=
  let n := adjustedNutrition result servingAdjustments in
  let score := Num.of_Z 100 in
  let score := sub score (mul (lit 0.02) (Num.max 0 (sub (t_calories n) (Num.of_Z 500)))) in
  let score := sub score (mul (lit 1.2) (t_sat_fat_g n)) in
  let score := sub score (mul (lit 0.2) (t_added_sugar_g n)) in
  let score := add score (mul (lit 0.8) (t_fiber_g n)) in
  let score := add score (mul (lit 0.5) (t_protein_g n)) in
  let score := reduce (caution servingAdjustments) (items result) 0 score in
  Z.max 0 (Z.min 100 (Num.Math_round score)).

End Arithmetic.

(** [k] quarters. *)
Definition quarter (k : Z) : Qc := Num.of_Z k / Num.of_Z 4.

(** A number of quarters between 0 and [b] of them. *)
Definition on_quarters (b : Z) (x : Qc) : Prop :=
  let k := Num.floor (x * Num.of_Z 4) in
  (0 ≤ k ≤ b)%Z ∧ x = quarter k.

(** A detected item all of whose contributions to the totals are such
    numbers: so it is for whole grams and calories at a serving that is a
    multiple of 0.25. *)
Definition item_on_quarters (b : Z) (im : FoodItem * Qc) : Prop :=
  let n := nutrition im.1 in
  on_quarters b (calories n * im.2)
  ∧ on_quarters b (protein_g n * im.2)
  ∧ on_quarters b (carbs_g n * im.2)
  ∧ on_quarters b (fat_g n * im.2)
  ∧ on_quarters b (Num.js_or (fiber_g n) 0 * im.2)
  ∧ on_quarters b (Num.js_or (sat_fat_g n) 0 * im.2)
  ∧ on_quarters b (Num.js_or (added_sugar_g n) 0 * im.2).

(** Totals all of whose fields are numbers of quarters, at most [a]. *)
Definition totals_on_quarters (a : Z) (t : Totals) : Prop :=
  on_quarters a (t_calories t)
  ∧ on_quarters a (t_protein_g t)
  ∧ on_quarters a (t_carbs_g t)
  ∧ on_quarters a (t_fat_g t)
  ∧ on_quarters a (t_fiber_g t)
  ∧ on_quarters a (t_sat_fat_g t)
  ∧ on_quarters a (t_added_sugar_g t).

End Rounded.

(** ** More meals *)

Module Meals.

Import ResultCard.

(** A meal of one soda, and the service's answer to it. *)
Definition soda_only : list Api.Prediction := [Scenario.prediction "soda" 0.9].

Definition soda_only_response : Api.Response :=
  Api.mkResponse (Num.of_Z 150) 92
    [ Api.mkItem "soda" (Num.lit 0.9) 1 (Api.dict 150 0 39 0 0 0 39) ]
    [ "Swap sugary drinks for water or unsweetened tea.";
      "Add veggies or whole grains to increase fiber.";
      "Add a lean protein for satiety." ].

(** Totals whose base score is 98.5: 10 g of added sugar, 1 g of protein. *)
Definition sweet_drink : Api.Dict := Api.dict 40 1 10 0 0 0 10.

(** A food of the seed data ([supabase/seeds.sql]) as an item of a result:
    the numbers of the JSON body are read as binary64 numbers. *)
Definition seed (label : string) (calories protein_g carbs_g fat_g fiber_g sat_fat_g added_sugar_g : Q)
  : FoodItem :=
  mkFoodItem label (Binary64.number 0.9) 1
    (mkNutritionInfo (Binary64.number calories) (Binary64.number protein_g)
       (Binary64.number carbs_g) (Binary64.number fat_g)
       (Some (Binary64.number fiber_g)) (Some (Binary64.number sat_fat_g))
       (Some (Binary64.number added_sugar_g))).

Definition apple : FoodItem := seed "apple" 95 0.5 25 0.3 4.4 0.1 19.
Definition banana : FoodItem := seed "banana" 105 1.3 27 0.4 3.1 0.1 14.
Definition orange : FoodItem := seed "orange" 62 1.2 15 0.2 3.1 0.0 12.

(** A result with the three fruits, and the same result with its items in
    the opposite order. *)
Definition fruits : AnalysisResult :=
  mkAnalysisResult (Num.of_Z 262) 100 [apple; banana; orange] [].

Definition fruits_reversed : AnalysisResult :=
  mkAnalysisResult (Num.of_Z 262) 100 [orange; banana; apple] [].

(** The scenario with the pizza at two servings and the salad at three
    quarters of one. *)
Definition edited : gmap nat Qc :=
  updateServing 1 (Num.lit 0.75) (updateServing 0 (Num.of_Z 2) (initialAdjustments Scenario.result)).

Definition edited_swapped : gmap nat Qc :=
  updateServing 0 (Num.lit 0.75) (updateServing 1 (Num.of_Z 2) (initialAdjustments Scenario.result_swapped)).

End Meals.

(** * Facts about the number layer *)

Section NumFacts.

Lemma this_plus (a b : Qc) : (this (a + b) == this a + this b)%Q.
Proof. apply Qred_correct. Qed.

Lemma this_minus (a b : Qc) : (this (a - b) == this a - this b)%Q.
Proof.
  unfold Qcminus. rewrite this_plus.
  unfold Qcopp, Q2Qc, this at 2. now rewrite Qred_correct.
Qed.

Lemma this_mult (a b : Qc) : (this (a * b) == this a * this b)%Q.
Proof. apply Qred_correct. Qed.

Lemma this_lit (q : Q) : (this (Num.lit q) == q)%Q.
Proof. apply Qred_correct. Qed.

Lemma this_of_Z (n : Z) : (this (Num.of_Z n) == inject_Z n)%Q.
Proof. apply Qred_correct. Qed.

Lemma floor_this (x : Qc) (q : Q) : (this x == q)%Q → Num.floor x = Qfloor q.
Proof. apply Qfloor_comp. Qed.

End NumFacts.

(** Turn an order statement on [Qc] into one on [Q], where [lra] works. *)
Ltac qc2q :=
  unfold Qcle, Qclt in *;
  rewrite ?this_plus, ?this_minus, ?this_mult, ?this_lit, ?this_of_Z in *.

(** Equalities between closed terms are settled by evaluating their
    decision procedure. *)
Ltac by_evaluation :=
  match goal with |- ?P => apply (bool_decide_unpack P); vm_compute; exact I end.

(** Order and equality goals on [Qc] that linear arithmetic settles. *)
Ltac qc_arith :=
  intros;
  first [ reflexivity
        | assumption
        | qc2q; lra
        | exfalso; qc2q; lra
        | apply Qcle_antisym; qc2q; lra
        | by_evaluation ].

Section RoundFacts.

Lemma max_case (a b : Qc) :
  (a ≤ b ∧ Num.max a b = b) ∨ (b < a ∧ Num.max a b = a).
Proof.
  unfold Num.max. case_bool_decide as H; [left | right]; split; auto.
  now apply Qcnot_le_lt.
Qed.

Lemma min_case (a b : Qc) :
  (a ≤ b ∧ Num.min a b = a) ∨ (b < a ∧ Num.min a b = b).
Proof.
  unfold Num.min. case_bool_decide as H; [left | right]; split; auto.
  now apply Qcnot_le_lt.
Qed.

End RoundFacts.

(** * The definitions at work *)

Section Examples.

Import ResultCard.

Example includes_inside : Str.includes "burger" "veggie burger" = true.
Proof. reflexivity. Qed.

Example includes_absent : Str.includes "soda" "salad" = false.
Proof. reflexivity. Qed.

Example includes_empty_hay : Str.includes "soda" "" = false.
Proof. reflexivity. Qed.

Example lower_mixed : Str.lower "French FRIES 2x" = "french fries 2x".
Proof. reflexivity. Qed.

Example Math_round_ties :
  map Num.Math_round [Num.lit 2.5; Num.lit 3.5; Num.lit (-0.5); Num.lit (-1.5); Num.lit 96.2]
  = [3; 4; 0; -1; 96]%Z.
Proof. reflexivity. Qed.

Example py_round_ties :
  map Num.py_round [Num.lit 2.5; Num.lit 3.5; Num.lit (-0.5); Num.lit (-1.5); Num.lit 104.2]
  = [2; 4; 0; -2; 104]%Z.
Proof. reflexivity. Qed.

Example lookup_synonym : Api.lookup_nutrition "fries" = Api.dict 365 4 48 17 4 3 0.
Proof. by_evaluation. Qed.

(** A label that matches two categories pays for the first one only. *)
Example caution_first_match :
  caution ∅ (Num.of_Z 50) (mkFoodItem "Pizza Burger" 1 (Num.of_Z 2) (mkNutritionInfo 0 0 0 0 None None None)) 0
  = Num.of_Z 40.
Proof. by_evaluation. Qed.

(** The second scenario of the specification: the pizza at two servings. *)
Example scenario_two_servings :
  render Scenario.result (updateServing 0 (Num.of_Z 2) (initialAdjustments Scenario.result))
  = mkView (mkTotals (Num.of_Z 720) (Num.of_Z 28) (Num.of_Z 82) (Num.of_Z 30)
                     (Num.of_Z 7) (Num.of_Z 10) (Num.of_Z 5))
           720 96 [Num.of_Z 2; 1] [] 100 (Some (100%Z, Num.of_Z 435)).
Proof. by_evaluation. Qed.

(** A written 0 is falsy: the item's own serving is used. *)
Example zero_adjustment_falls_back :
  servingMultiplier {[ 0%nat := 0 ]} (mkFoodItem "salad" 1 (Num.of_Z 3) (mkNutritionInfo 0 0 0 0 None None None)) 0
  = Num.of_Z 3.
Proof. by_evaluation. Qed.

End Examples.

(** * Facts about the traversals *)

Section ReduceFacts.

Context {A : Type}.

(** Two callbacks that agree on the elements of the array give the same
    reduction. *)
Lemma reduce_ext {B : Type} (f g : B → A → nat → B) (l : list A) (i : nat) (acc : B) :
  (∀ b j x, l !! j = Some x → f b x (i + j)%nat = g b x (i + j)%nat) →
  ResultCard.reduce f l i acc = ResultCard.reduce g l i acc.
Proof.
  revert i acc. induction l as [| x l IH]; intros i acc Hfg; [reflexivity |].
  simpl. pose proof (Hfg acc 0%nat x eq_refl) as H0.
  rewrite Nat.add_0_r in H0. rewrite H0.
  apply IH. intros b j y Hj.
  rewrite Nat.add_succ_comm. now apply (Hfg b (S j) y).
Qed.

Lemma sum_imap_shift (w : nat → A → Qc) (l : list A) (i : nat) :
  Spec.sum (imap (λ j x, w (i + S j)%nat x) l) = Spec.sum (imap (λ j x, w (S i + j)%nat x) l).
Proof.
  f_equal. apply imap_ext. intros j x _. simpl. f_equal. lia.
Qed.

End ReduceFacts.

(** * The label filter *)

Section LabelFilter.

Import Api.

Lemma threshold_below_top (s : Qc) :
  Num.lit 0.15 ≤ s → Num.max (Num.lit 0.15) (s * Num.lit 0.6) ≤ s.
Proof.
  intros H. destruct (max_case (Num.lit 0.15) (s * Num.lit 0.6)) as [[_ ->] | [_ ->]];
    [| exact H].
  qc2q. lra.
Qed.

Lemma threshold_floor (s : Qc) : Num.lit 0.15 ≤ Num.max (Num.lit 0.15) (s * Num.lit 0.6).
Proof.
  destruct (max_case (Num.lit 0.15) (s * Num.lit 0.6)) as [[H ->] | [_ ->]];
    [exact H | apply Qcle_refl].
Qed.

Lemma filter_none (t : Qc) (preds : list Prediction) :
  Forall (λ q, ¬ t ≤ p_score q) preds → filter (λ p, t ≤ p_score p) preds = [].
Proof.
  induction 1 as [| q preds Hq _ IH]; [reflexivity |].
  now rewrite filter_cons_False.
Qed.

(** On a descending list, the predictions that reach a threshold form a
    prefix of the list. *)
Lemma filter_descending_prefix (t : Qc) (preds : list Prediction) :
  Spec.descending preds → filter (λ p, t ≤ p_score p) preds `prefix_of` preds.
Proof.
  induction 1 as [| p preds Hsorted IH Hall]; [reflexivity |].
  destruct (decide (t ≤ p_score p)) as [Hp | Hp].
  - rewrite filter_cons_True by exact Hp. now apply prefix_cons.
  - rewrite filter_cons_False by exact Hp.
    rewrite filter_none; [apply prefix_nil |].
    eapply Forall_impl; [exact Hall |]. simpl.
    intros q Hq Hreach. apply Hp.
    now apply Qcle_trans with (p_score q).
Qed.

(** C2, as the code has it.  For every non-empty prediction list ordered by
    descending confidence, with [t = max(0.15, pMain * 0.6)]: the kept list
    is [take 3] of the predictions with confidence at least [t], a prefix
    of the list of at most 3 predictions, each of confidence at least [t];
    the top prediction is kept when [pMain >= 0.15], and nothing is kept
    when [pMain < 0.15]. *)
Theorem label_filter_keeps (p0 : Prediction) (rest : list Prediction)
    (Hdesc : Spec.descending (p0 :: rest)) :
  let preds := p0 :: rest in
  let t := Num.max (Num.lit 0.15) (p_score p0 * Num.lit 0.6) in
  let kept := keep (p_score p0) preds in
  kept `prefix_of` preds
  ∧ (∀ p, p ∈ kept → t ≤ p_score p)
  ∧ length kept = Nat.min 3 (length (filter (λ p, t ≤ p_score p) preds))
  ∧ (length kept ≤ 3)%nat
  ∧ (Num.lit 0.15 ≤ p_score p0 → ∃ tl, kept = p0 :: tl)
  ∧ (p_score p0 < Num.lit 0.15 → kept = []).
Proof.
  intros preds t kept. subst kept. unfold keep. fold t.
  pose proof (filter_descending_prefix t preds Hdesc) as Hprefix.
  repeat split.
  - etrans; [apply prefix_take | exact Hprefix].
  - intros p Hp. apply elem_of_take in Hp as (i & Hi & _).
    apply list_elem_of_lookup_2 in Hi. now apply list_elem_of_filter in Hi as [Ht _].
  - apply length_take.
  - rewrite length_take. lia.
  - intros Htop. subst preds.
    rewrite filter_cons_True by (now apply threshold_below_top). simpl. eauto.
  - intros Htop. subst preds.
    assert (¬ t ≤ p_score p0) as Hp0.
    { intros Ht. apply (Qclt_not_le _ _ Htop).
      apply Qcle_trans with t; [apply threshold_floor | exact Ht]. }
    destruct Hprefix as [k Hk]. rewrite filter_cons_False in Hk |- * by exact Hp0.
    destruct (filter (λ p, t ≤ p_score p) rest) as [| q l] eqn:Hf; [reflexivity |].
    exfalso.
    assert (q ∈ filter (λ p, t ≤ p_score p) rest) as Hq by (rewrite Hf; left).
    apply list_elem_of_filter in Hq as [Hq _].
    injection Hk as Heq _. subst q. contradiction.
Qed.

Lemma scenario_descending : Spec.descending Scenario.preds.
Proof.
  unfold Spec.descending, Scenario.preds.
  repeat first [apply SSorted_cons | apply SSorted_nil | apply Forall_cons | apply Forall_nil];
    simpl; by_evaluation.
Qed.

Lemma label_filter_keeps_witness :
  Spec.descending Scenario.preds
  ∧ length (keep (Num.lit 0.91) Scenario.preds) = 2%nat.
Proof.
  split; [exact scenario_descending |].
  destruct (label_filter_keeps (Scenario.prediction "pizza" 0.91)
              [Scenario.prediction "salad" 0.55; Scenario.prediction "soda" 0.20]
              scenario_descending) as (_ & _ & Hlen & _).
  etrans; [exact Hlen | vm_compute; reflexivity].
Defined.

(** C2, as the specification states it, fails: a one-element list, trivially
    descending, with a top score of 0.10 in [0,1]: the threshold is 0.15,
    nothing is kept, and the service answers with no item at all. *)
Lemma faint_top_score_keeps_nothing :
  Scenario.faint ≠ []
  ∧ Spec.descending Scenario.faint
  ∧ Forall (λ p, 0 ≤ p_score p ∧ p_score p ≤ 1) Scenario.faint
  ∧ keep (Num.lit 0.10) Scenario.faint = []
  ∧ ¬ (1 ≤ length (keep (Num.lit 0.10) Scenario.faint))%nat
  ∧ analyze "image/jpeg" Scenario.faint = inr Scenario.no_items
  ∧ items Scenario.no_items = [].
Proof.
  split; [discriminate |].
  split; [repeat constructor |].
  split; [repeat constructor; by_evaluation |].
  assert (keep (Num.lit 0.10) Scenario.faint = []) as -> by by_evaluation.
  split; [reflexivity |].
  split; [simpl; lia |].
  split; [by_evaluation | reflexivity].
Qed.

End LabelFilter.

(** * The service *)

Section Service.

Import Api.

Lemma analyze_allowed (content_type : string) (clf_img : list Prediction) :
  content_type ∈ allowed_types →
  analyze content_type clf_img
  = match take 5 clf_img with
    | [] => inl IndexError
    | p0 :: _ =>
      let st := foldl loop_body ([], zero_totals) (keep (p_score p0) (take 5 clf_img)) in
      inr (mkResponse (calories st.2) (health_score st.2) st.1 (make_tips st.2))
    end.
Proof.
  intros Hct. unfold analyze. rewrite bool_decide_eq_true_2 by exact Hct. simpl.
  destruct clf_img as [| p0 l]; [reflexivity |]. simpl.
  now destruct (foldl loop_body ([], zero_totals) (keep (p_score p0) (p0 :: take 4 l))).
Qed.

(** C3.  On an accepted upload, an empty prediction list makes the analysis
    fail: [preds[0]] raises, no response is built (the function has no
    effect besides its answer, so nothing is stored); on every non-empty
    prediction list the analysis answers with a response and raises
    nothing.  The failure the specification names NoDetectionError is, in
    the code, the [IndexError] of the empty list. *)
Theorem empty_predictions_fail (content_type : string)
    (Hct : content_type ∈ allowed_types) :
  analyze content_type [] = inl IndexError
  ∧ ∀ (p : Prediction) (preds : list Prediction),
      ∃ r, analyze content_type (p :: preds) = inr r.
Proof.
  split.
  - now rewrite analyze_allowed.
  - intros p preds. rewrite analyze_allowed by exact Hct. simpl. eauto.
Qed.

Lemma empty_predictions_fail_witness :
  "image/png" ∈ allowed_types
  ∧ analyze "image/png" [] = inl IndexError
  ∧ ∃ r, analyze "image/png" Scenario.preds = inr r.
Proof.
  assert ("image/png" ∈ allowed_types) as Hct by (by_evaluation).
  split; [exact Hct |].
  destruct (empty_predictions_fail "image/png" Hct) as [Hempty Hsome].
  split; [exact Hempty | apply Hsome].
Defined.

(** C4.  [lookup_nutrition] answers with a profile for every label: the
    table's entry for the canonical name when there is one, the generic
    profile otherwise; in particular a label without synonym whose
    lower-cased form is not in the table gets the generic profile.  (Being
    a function, it answers the same on every call.) *)
Theorem lookup_nutrition_total (name : string) :
  let canonical := Str.lower (default name (labels_map !! name)) in
  (∃ profile, lookup_nutrition name = profile
     ∧ (table !! canonical = Some profile
        ∨ (table !! canonical = None ∧ profile = generic)))
  ∧ (labels_map !! name = None → table !! Str.lower name = None →
     lookup_nutrition name = generic).
Proof.
  intros canonical. split.
  - exists (lookup_nutrition name). split; [reflexivity |].
    unfold lookup_nutrition. fold canonical.
    destruct (table !! canonical) as [profile |]; simpl; auto.
  - intros Hsyn Hcanon. unfold lookup_nutrition.
    rewrite Hsyn. simpl. now rewrite Hcanon.
Qed.

Lemma lookup_nutrition_total_witness :
  labels_map !! "sushi" = None
  ∧ table !! Str.lower "sushi" = None
  ∧ lookup_nutrition "sushi" = generic.
Proof.
  assert (labels_map !! "sushi" = None) as Hsyn by (vm_compute; reflexivity).
  assert (table !! Str.lower "sushi" = None) as Hcanon by (vm_compute; reflexivity).
  split; [exact Hsyn |]. split; [exact Hcanon |].
  exact (proj2 (lookup_nutrition_total "sushi") Hsyn Hcanon).
Defined.

(** C7.  The scenario: on an accepted upload with predictions pizza 0.91,
    salad 0.55, soda 0.20, the threshold is 0.546, pizza and salad are kept,
    their profiles are the ones of the table, and the answer has
    total_calories 435, health_score 100, two items and no tip; the card
    recomputes the score 100 from that answer. *)
Theorem scenario_analysis (content_type : string)
    (Hct : content_type ∈ allowed_types) :
  Num.max (Num.lit 0.15) (Num.lit 0.91 * Num.lit 0.6) = Num.lit 0.546
  ∧ keep (Num.lit 0.91) Scenario.preds
    = [Scenario.prediction "pizza" 0.91; Scenario.prediction "salad" 0.55]
  ∧ lookup_nutrition "pizza" = dict 285 12 36 10 2 4 2
  ∧ lookup_nutrition "salad" = dict 150 4 10 10 3 2 1
  ∧ (∃ r, analyze content_type Scenario.preds = inr r
       ∧ total_calories r = Num.of_Z 435
       ∧ r_health_score r = 100%Z
       ∧ length (items r) = 2%nat
       ∧ map label (items r) = ["pizza"; "salad"]
       ∧ tips r = []
       ∧ ResultCard.adjustedHealthScore (ResultCard.of_response r)
           (ResultCard.initialAdjustments (ResultCard.of_response r)) = 100%Z).
Proof.
  split; [by_evaluation |]. split; [by_evaluation |].
  split; [by_evaluation |]. split; [by_evaluation |].
  exists Scenario.response.
  split; [rewrite analyze_allowed by exact Hct; by_evaluation |].
  split; [reflexivity |]. split; [reflexivity |]. split; [reflexivity |].
  split; [reflexivity |]. split; [reflexivity |].
  vm_compute. reflexivity.
Qed.

Lemma scenario_analysis_witness :
  "image/jpeg" ∈ allowed_types
  ∧ ∃ r, analyze "image/jpeg" Scenario.preds = inr r
         ∧ total_calories r = Num.of_Z 435 ∧ r_health_score r = 100%Z
         ∧ length (items r) = 2%nat ∧ tips r = [].
Proof.
  assert ("image/jpeg" ∈ allowed_types) as Hct by (by_evaluation).
  split; [exact Hct |].
  destruct (scenario_analysis "image/jpeg" Hct)
    as (_ & _ & _ & _ & r & Hr & Hcal & Hscore & Hlen & _ & Htips & _).
  exists r. auto.
Defined.

(** C6, at a failing input.  For a meal of one pizza the service answers
    with the score 100 (its [health_score] has no caution penalty:
    102.4 rounds to 102 and is clamped), and the card recomputes, for the
    same item at its initial serving, 99 (102.4 - 3 = 99.4). *)
Theorem service_and_card_scores_differ :
  analyze "image/jpeg" Scenario.pizza_only = inr Scenario.pizza_only_response
  ∧ r_health_score Scenario.pizza_only_response = 100%Z
  ∧ ResultCard.adjustedHealthScore
      (ResultCard.of_response Scenario.pizza_only_response)
      (ResultCard.initialAdjustments (ResultCard.of_response Scenario.pizza_only_response))
    = 99%Z.
Proof.
  split; [by_evaluation |]. split; [reflexivity |]. vm_compute. reflexivity.
Qed.

End Service.

(** * The macro bars *)

Section MacroPercentages.

Import MacroBars.

Lemma percent_defined (cals total : Qc) :
  ∃ p, percent cals total = Some p ∧ (total ≤ 0 → p = 0).
Proof.
  unfold percent, Num.js_div. case_bool_decide as Hpos.
  - case_bool_decide as Hzero.
    + exfalso. subst total. exact (Qclt_not_le _ _ Hpos (Qcle_refl 0)).
    + simpl. eexists. split; [reflexivity |].
      intros Hle. exfalso. revert Hpos. now apply Qcle_not_lt.
  - eauto.
Qed.

(** C10.  For every nutrition input the three macro percentages are
    defined (no division by zero is evaluated), and they are 0 when the
    total of the macro calories is 0. *)
Theorem macro_percentages_defined (nutrition : MacroData) :
  ∃ p c f,
    proteinPercent nutrition = Some p
    ∧ carbsPercent nutrition = Some c
    ∧ fatPercent nutrition = Some f
    ∧ (totalMacroCals nutrition = 0 → p = 0 ∧ c = 0 ∧ f = 0).
Proof.
  unfold proteinPercent, carbsPercent, fatPercent.
  destruct (percent_defined (protein_g nutrition * Num.of_Z 4) (totalMacroCals nutrition))
    as (p & Hp & Hp0).
  destruct (percent_defined (carbs_g nutrition * Num.of_Z 4) (totalMacroCals nutrition))
    as (c & Hc & Hc0).
  destruct (percent_defined (fat_g nutrition * Num.of_Z 9) (totalMacroCals nutrition))
    as (f & Hf & Hf0).
  exists p, c, f. split; [exact Hp |]. split; [exact Hc |]. split; [exact Hf |].
  intros Hzero. rewrite Hzero in Hp0, Hc0, Hf0.
  auto using Qcle_refl.
Qed.

Lemma macro_percentages_defined_witness :
  totalMacroCals (mkMacroData 0 0 0 0 None) = 0
  ∧ proteinPercent (mkMacroData 0 0 0 0 None) = Some 0
  ∧ carbsPercent (mkMacroData 0 0 0 0 None) = Some 0
  ∧ fatPercent (mkMacroData 0 0 0 0 None) = Some 0.
Proof.
  assert (totalMacroCals (mkMacroData 0 0 0 0 None) = 0) as Hzero by (by_evaluation).
  split; [exact Hzero |].
  destruct (macro_percentages_defined (mkMacroData 0 0 0 0 None))
    as (p & c & f & Hp & Hc & Hf & H0).
  destruct (H0 Hzero) as (-> & -> & ->). auto.
Defined.

End MacroPercentages.

(** * Aggregation *)

Section Aggregation.

Import ResultCard.

Lemma sum_cons (x : Qc) (l : list Qc) : Spec.sum (x :: l) = x + Spec.sum l.
Proof. reflexivity. Qed.

Lemma sum_permutation (l l' : list Qc) : l ≡ₚ l' → Spec.sum l = Spec.sum l'.
Proof.
  induction 1 as [| x l l' _ IH | x y l | l l' l'' _ IH1 _ IH2].
  - reflexivity.
  - now rewrite !sum_cons, IH.
  - rewrite !sum_cons. ring.
  - now rewrite IH1.
Qed.

Lemma total_permutation (field : NutritionInfo → Qc) (l l' : list (FoodItem * Qc)) :
  l ≡ₚ l' → Spec.total field l = Spec.total field l'.
Proof.
  intros Hperm. unfold Spec.total. apply sum_permutation.
  now apply Permutation_map.
Qed.

Lemma aggregate_permutation (l l' : list (FoodItem * Qc)) :
  l ≡ₚ l' → Spec.aggregate l = Spec.aggregate l'.
Proof.
  intros Hperm. unfold Spec.aggregate.
  f_equal; now apply total_permutation.
Qed.

Lemma weighted_cons (adj : gmap nat Qc) (field : NutritionInfo → Qc) (i : nat)
    (item : FoodItem) (l : list FoodItem) :
  Spec.weighted adj field i (item :: l)
  = field (nutrition item) * servingMultiplier adj item i + Spec.weighted adj field (S i) l.
Proof.
  unfold Spec.weighted. rewrite imap_cons, sum_cons, Nat.add_0_r. f_equal.
  unfold compose.
  apply (sum_imap_shift (λ j item, field (nutrition item) * servingMultiplier adj item j)).
Qed.

Lemma reduce_step (adj : gmap nat Qc) (l : list FoodItem) (i : nat) (acc : Totals) :
  reduce (addItem adj) l i acc
  = mkTotals
      (t_calories acc + Spec.weighted adj calories i l)
      (t_protein_g acc + Spec.weighted adj protein_g i l)
      (t_carbs_g acc + Spec.weighted adj carbs_g i l)
      (t_fat_g acc + Spec.weighted adj fat_g i l)
      (t_fiber_g acc + Spec.weighted adj (λ n, Num.js_or (fiber_g n) 0) i l)
      (t_sat_fat_g acc + Spec.weighted adj (λ n, Num.js_or (sat_fat_g n) 0) i l)
      (t_added_sugar_g acc + Spec.weighted adj (λ n, Num.js_or (added_sugar_g n) 0) i l).
Proof.
  revert i acc. induction l as [| item l IH]; intros i acc.
  - destruct acc. unfold Spec.weighted, Spec.sum. simpl. f_equal; ring.
  - simpl. rewrite IH, !weighted_cons. unfold addItem. simpl. f_equal; ring.
Qed.

Lemma weighted_total (adj : gmap nat Qc) (field : NutritionInfo → Qc) (result : AnalysisResult) :
  Spec.weighted adj field 0 (items result) = Spec.total field (Spec.detected result adj).
Proof.
  unfold Spec.weighted, Spec.total, Spec.detected.
  change (map ?f ?l) with (f <$> l). now rewrite fmap_imap.
Qed.

(** The card's totals are, field by field, the sums over the items of the
    field times the serving multiplier. *)
Lemma adjustedNutrition_aggregate (result : AnalysisResult) (adj : gmap nat Qc) :
  adjustedNutrition result adj = Spec.aggregate (Spec.detected result adj).
Proof.
  unfold adjustedNutrition. rewrite reduce_step. unfold Spec.aggregate. simpl.
  rewrite <- !weighted_total. f_equal; ring.
Qed.

(** The service's totals. *)
Lemma add_totals_swap (t a b : Api.Dict) :
  Api.add_totals (Api.add_totals t a) b = Api.add_totals (Api.add_totals t b) a.
Proof. unfold Api.add_totals. simpl. f_equal; ring. Qed.

Lemma loop_totals_ext (kept : list Api.Prediction) (st st' : list Api.Item * Api.Dict) :
  st.2 = st'.2 → (foldl Api.loop_body st kept).2 = (foldl Api.loop_body st' kept).2.
Proof.
  revert st st'. induction kept as [| p kept IH]; intros st st' Hst; [exact Hst |].
  simpl. apply IH. simpl. now rewrite Hst.
Qed.

Lemma loop_totals_permutation (kept kept' : list Api.Prediction) :
  kept ≡ₚ kept' →
  ∀ st st' : list Api.Item * Api.Dict, st.2 = st'.2 →
    (foldl Api.loop_body st kept).2 = (foldl Api.loop_body st' kept').2.
Proof.
  induction 1 as [| p l l' _ IH | p q l | l l' l'' _ IH1 _ IH2]; intros st st' Hst.
  - exact Hst.
  - simpl. apply IH. simpl. now rewrite Hst.
  - simpl. apply loop_totals_ext. simpl. rewrite Hst. apply add_totals_swap.
  - etrans; [apply (IH1 st st Logic.eq_refl) | now apply IH2].
Qed.

End Aggregation.

(** * The serving adjuster *)

Section ServingAdjuster.

Import ResultCard.

Lemma clamp_serving (value : Qc) :
  let clamped := Num.max (Num.lit 0.25) (Num.min (Num.of_Z 5) value) in
  Num.lit 0.25 ≤ clamped ∧ clamped ≤ Num.of_Z 5
  ∧ (Num.lit 0.25 ≤ value → value ≤ Num.of_Z 5 → clamped = value)
  ∧ (value < Num.lit 0.25 → clamped = Num.lit 0.25)
  ∧ (Num.of_Z 5 < value → clamped = Num.of_Z 5).
Proof.
  intros clamped. subst clamped.
  destruct (min_case (Num.of_Z 5) value) as [[Hmin ->] | [Hmin ->]].
  - destruct (max_case (Num.lit 0.25) (Num.of_Z 5)) as [[Hmax ->] | [Hmax _]].
    + repeat split; qc_arith.
    + exfalso. revert Hmax. apply Qcle_not_lt. by_evaluation.
  - destruct (max_case (Num.lit 0.25) value) as [[Hmax ->] | [Hmax ->]];
      repeat split; qc_arith.
Qed.

Lemma clamped_not_zero (value : Qc) :
  Num.max (Num.lit 0.25) (Num.min (Num.of_Z 5) value) ≠ 0.
Proof.
  destruct (clamp_serving value) as (Hlo & _). intros Hzero.
  rewrite Hzero in Hlo. revert Hlo. apply Qclt_not_le. by_evaluation.
Qed.

(** The view depends on the adjustments only through the serving
    multipliers of the result's items. *)
Lemma render_ext (result : AnalysisResult) (adj adj' : gmap nat Qc) :
  (∀ i item, items result !! i = Some item →
             servingMultiplier adj item i = servingMultiplier adj' item i) →
  render result adj = render result adj'.
Proof.
  intros Hsame.
  assert (adjustedNutrition result adj = adjustedNutrition result adj') as Hn.
  { unfold adjustedNutrition. apply reduce_ext. intros b j x Hj.
    unfold addItem. simpl. now rewrite (Hsame j x Hj). }
  assert (adjustedHealthScore result adj = adjustedHealthScore result adj') as Hs.
  { unfold adjustedHealthScore. rewrite Hn. do 3 f_equal.
    apply reduce_ext. intros b j x Hj.
    unfold caution. simpl. now rewrite (Hsame j x Hj). }
  unfold render. rewrite Hn, Hs. f_equal.
  apply imap_ext. intros i item Hi. now apply Hsame.
Qed.





(** C8.  Writing the same serving twice leaves the adjustments, and so the
    view, as after the first write; and two edit histories after which
    every item of the result has the same serving multiplier give the same
    view, whatever the edits were. *)
Theorem serving_adjustment_replay (result : AnalysisResult) (adj : gmap nat Qc)
    (index : nat) (value : Qc) (edits1 edits2 : list (nat * Qc))
    (Hsame : ∀ i item, items result !! i = Some item →
               servingMultiplier (Spec.replay edits1 adj) item i
               = servingMultiplier (Spec.replay edits2 adj) item i) :
  updateServing index value (updateServing index value adj)
  = updateServing index value adj
  ∧ render result (updateServing index value (updateServing index value adj))
    = render result (updateServing index value adj)
  ∧ render result (Spec.replay edits1 adj) = render result (Spec.replay edits2 adj).
Proof.
  assert (updateServing index value (updateServing index value adj)
          = updateServing index value adj) as Hidem
    by (unfold updateServing; apply insert_insert_eq).
  split; [exact Hidem |]. split; [now rewrite Hidem |].
  now apply render_ext.
Qed.

Lemma serving_adjustment_replay_witness :
  Spec.replay Scenario.history1 (initialAdjustments Scenario.result)
  ≠ Spec.replay Scenario.history2 (initialAdjustments Scenario.result)
  ∧ render Scenario.result
      (Spec.replay Scenario.history1 (initialAdjustments Scenario.result))
    = render Scenario.result
        (Spec.replay Scenario.history2 (initialAdjustments Scenario.result)).
Proof.
  split.
  - intros Heq.
    apply (f_equal (λ m : gmap nat Qc, m !! 5%nat)) in Heq.
    vm_compute in Heq. discriminate.
  - apply (serving_adjustment_replay Scenario.result
             (initialAdjustments Scenario.result) 0 1
             Scenario.history1 Scenario.history2).
    intros i item Hi.
    destruct i as [| [| i]]; [| | discriminate Hi].
    + injection Hi as <-. by_evaluation.
    + injection Hi as <-. by_evaluation.
Defined.

End ServingAdjuster.

(** * More on the number layer *)

(** As [qc2q], with the constant 1 made a numeral. *)
Ltac qc2q1 :=
  change (Q2Qc 1) with (Num.of_Z 1) in *;
  do 3 qc2q;
  change (inject_Z 1) with 1%Q in *.

(** As [qc2q], with the integer constants made numerals. *)
Ltac qc2qz :=
  do 3 qc2q;
  repeat match goal with
         | |- context [inject_Z (Zpos ?p)] =>
           change (inject_Z (Zpos p)) with (Zpos p # 1)%Q in *
         | H : context [inject_Z (Zpos ?p)] |- _ =>
           change (inject_Z (Zpos p)) with (Zpos p # 1)%Q in *
         end.

Section PyRoundFacts.

Lemma floor_bounds (x : Qc) :
  Num.of_Z (Num.floor x) ≤ x ∧ x < Num.of_Z (Num.floor x) + Num.of_Z 1.
Proof.
  unfold Num.floor.
  pose proof (Qfloor_le x) as Hlo. pose proof (Qlt_floor x) as Hhi.
  rewrite inject_Z_plus in Hhi.
  split; qc2q; assumption.
Qed.

Lemma of_Z_le (n m : Z) : (n ≤ m)%Z ↔ Num.of_Z n ≤ Num.of_Z m.
Proof. unfold Qcle. rewrite !this_of_Z, Zle_Qle. reflexivity. Qed.

Lemma of_Z_lt (n m : Z) : (n < m)%Z ↔ Num.of_Z n < Num.of_Z m.
Proof. unfold Qclt. rewrite !this_of_Z, Zlt_Qlt. reflexivity. Qed.

Lemma of_Z_plus (n m : Z) : Num.of_Z (n + m) = Num.of_Z n + Num.of_Z m.
Proof.
  apply Qc_is_canon. rewrite this_plus, !this_of_Z, inject_Z_plus. reflexivity.
Qed.

Lemma floor_mono (x y : Qc) : x ≤ y → (Num.floor x ≤ Num.floor y)%Z.
Proof. intros H. unfold Num.floor. now apply Qfloor_resp_le. Qed.

(** Python's [round] answers with the floor or the floor plus one, at a
    distance of at most one half. *)
Lemma py_round_spec (x : Qc) :
  (Num.py_round x = Num.floor x ∨ Num.py_round x = (Num.floor x + 1)%Z)
  ∧ Num.of_Z (Num.py_round x) - Num.lit 0.5 ≤ x
  ∧ x ≤ Num.of_Z (Num.py_round x) + Num.lit 0.5.
Proof.
  unfold Num.py_round.
  destruct (floor_bounds x) as [Hlo Hhi].
  set (f := Num.floor x) in *. clearbody f.
  repeat case_bool_decide; [| | destruct (Z.even f)].
  all: repeat match goal with H : ¬ _ < _ |- _ => apply Qcnot_lt_le in H end.
  all: split; [auto |].
  all: rewrite ?of_Z_plus.
  all: split; qc2q1; lra.
Qed.

Lemma py_round_mono (x y : Qc) : x ≤ y → (Num.py_round x ≤ Num.py_round y)%Z.
Proof.
  intros Hxy. pose proof (floor_mono x y Hxy) as Hf.
  destruct (py_round_spec x) as (Hx & _ & _), (py_round_spec y) as (Hy & _ & _).
  destruct (decide (Num.floor x = Num.floor y)) as [Heq | Hne]; [| lia].
  clear Hx Hy Hf. unfold Num.py_round. rewrite <- Heq.
  set (f := Num.floor x) in *. clearbody f.
  repeat case_bool_decide; destruct (Z.even f); try lia.
  all: exfalso.
  all: repeat match goal with H : ¬ _ < _ |- _ => apply Qcnot_lt_le in H end.
  all: qc2q1; lra.
Qed.

Lemma py_round_of_Z (n : Z) : Num.py_round (Num.of_Z n) = n.
Proof.
  destruct (py_round_spec (Num.of_Z n)) as (_ & Hlo & Hhi).
  set (m := Num.py_round (Num.of_Z n)) in *. clearbody m.
  qc2q.
  assert (inject_Z m < inject_Z n + 1)%Q as H1 by lra.
  assert (inject_Z n < inject_Z m + 1)%Q as H2 by lra.
  change 1%Q with (inject_Z 1) in H1, H2.
  rewrite <- inject_Z_plus in H1, H2.
  rewrite <- Zlt_Qlt in H1, H2. lia.
Qed.

Lemma max_mono_r (a b b' : Qc) : b ≤ b' → Num.max a b ≤ Num.max a b'.
Proof.
  intros H.
  destruct (max_case a b) as [[H1 ->] | [H1 ->]],
           (max_case a b') as [[H2 ->] | [H2 ->]]; qc_arith.
Qed.

End PyRoundFacts.
(** * More on the service *)

Section ServiceFacts.

Import Api.

Lemma lower_ascii_idempotent (c : ascii) :
  Str.lower_ascii (Str.lower_ascii c) = Str.lower_ascii c.
Proof. destruct c as [[] [] [] [] [] [] [] []]; reflexivity. Qed.

Lemma lower_idempotent (s : string) : Str.lower (Str.lower s) = Str.lower s.
Proof.
  induction s as [| c s IH]; [reflexivity |].
  simpl. now rewrite lower_ascii_idempotent, IH.
Qed.

(** The loop of [analyze], in closed form. *)
Lemma loop_items (kept : list Prediction) (st : list Item * Dict) :
  foldl loop_body st kept
  = (st.1 ++ map Service.item_of kept,
     foldl add_totals st.2 (map (λ p, nutrition (Service.item_of p)) kept)).
Proof.
  revert st. induction kept as [| p kept IH]; intros st.
  - simpl. rewrite app_nil_r. now destruct st.
  - simpl. rewrite IH. simpl. now rewrite <- app_assoc.
Qed.

Lemma add_totals_sum (items : list Item) (t : Dict) :
  foldl add_totals t (map nutrition items) = add_totals t (Service.totals_of items).
Proof.
  revert t. induction items as [| it items IH]; intros t.
  - destruct t. unfold add_totals, Service.totals_of, Spec.sum. simpl. f_equal; ring.
  - simpl. rewrite IH. unfold add_totals, Service.totals_of, Spec.sum. simpl.
    f_equal; ring.
Qed.

Lemma add_zero_totals (t : Dict) : add_totals zero_totals t = t.
Proof.
  destruct t. unfold add_totals, zero_totals, dict. simpl.
  change (Num.of_Z 0) with 0. f_equal; ring.
Qed.

(** What a successful [analyze] answers, in terms of the kept predictions. *)
Lemma analyze_inr (content_type : string) (clf_img : list Prediction) (r : Response) :
  analyze content_type clf_img = inr r →
  content_type ∈ allowed_types
  ∧ ∃ p0 rest, take 5 clf_img = p0 :: rest
      ∧ items r = map Service.item_of (keep (p_score p0) (take 5 clf_img))
      ∧ total_calories r = calories (Service.totals_of (items r))
      ∧ r_health_score r = health_score (Service.totals_of (items r))
      ∧ tips r = make_tips (Service.totals_of (items r)).
Proof.
  intros Hr.
  destruct (decide (content_type ∈ allowed_types)) as [Hct | Hct].
  - split; [exact Hct |]. rewrite analyze_allowed in Hr by exact Hct.
    destruct (take 5 clf_img) as [| p0 rest] eqn:Htake; [discriminate |].
    exists p0, rest. split; [reflexivity |].
    rewrite loop_items in Hr. simpl in Hr.
    rewrite <- (map_map Service.item_of nutrition), add_totals_sum, add_zero_totals in Hr.
    injection Hr as <-. simpl. auto.
  - unfold analyze in Hr. rewrite bool_decide_eq_false_2 in Hr by exact Hct.
    discriminate.
Qed.

Lemma analyze_http_unsupported (content_type : string) (clf_img : list Prediction)
    (status : Z) (detail : string) :
  analyze content_type clf_img = inl (HTTPException status detail) →
  (content_type ∉ allowed_types) ∧ status = 400%Z.
Proof.
  intros H. destruct (decide (content_type ∈ allowed_types)) as [Hct | Hct].
  - rewrite analyze_allowed in H by exact Hct. destruct (take 5 clf_img); discriminate.
  - unfold analyze in H. rewrite bool_decide_eq_false_2 in H by exact Hct.
    injection H as <- _. auto.
Qed.

(** X1.  The failures of [analyze]: an upload whose content type is not one
    of the three accepted ones is refused with status 400 whatever the
    predictions are, also when there are none; the [IndexError] arises
    exactly for an accepted upload without predictions. *)
Theorem analyze_failures (content_type : string) (clf_img : list Prediction) :
  ((content_type ∉ allowed_types) →
     analyze content_type clf_img = inl (HTTPException 400 "Unsupported image type"))
  ∧ (analyze content_type clf_img = inl IndexError
     ↔ content_type ∈ allowed_types ∧ clf_img = [])
  ∧ (∀ status detail, analyze content_type clf_img = inl (HTTPException status detail) →
       (content_type ∉ allowed_types) ∧ status = 400%Z).
Proof.
  split; [| split; [| intros status detail; apply analyze_http_unsupported]].
  - intros Hct. unfold analyze. rewrite bool_decide_eq_false_2 by exact Hct. reflexivity.
  - destruct (decide (content_type ∈ allowed_types)) as [Hct | Hct].
    + rewrite analyze_allowed by exact Hct.
      destruct clf_img as [| p l]; simpl; split.
      * auto.
      * reflexivity.
      * discriminate.
      * intros [_ H]. discriminate.
    + unfold analyze. rewrite bool_decide_eq_false_2 by exact Hct. simpl.
      split; [discriminate | intros [H _]; contradiction].
Qed.

Lemma analyze_failures_witness :
  ("image/gif" ∉ allowed_types)
  ∧ analyze "image/gif" [] = inl (HTTPException 400 "Unsupported image type")
  ∧ analyze "image/gif" Scenario.preds = inl (HTTPException 400 "Unsupported image type").
Proof.
  assert ("image/gif" ∉ allowed_types) as Hct by by_evaluation.
  split; [exact Hct |].
  split; apply (proj1 (analyze_failures "image/gif" _) Hct).
Defined.

(** X2.  [analyze] reads the first five predictions only: what the
    classifier lists after them never changes the answer. *)
Theorem analyze_first_five (content_type : string) (clf_img more : list Prediction) :
  (5 ≤ length clf_img)%nat →
  analyze content_type (clf_img ++ more) = analyze content_type (take 5 clf_img).
Proof.
  intros Hlen. unfold analyze.
  rewrite take_take, Nat.min_id, take_app_le by exact Hlen. reflexivity.
Qed.

Lemma analyze_first_five_witness :
  (5 ≤ length (Scenario.preds ++ Scenario.preds))%nat
  ∧ analyze "image/png" ((Scenario.preds ++ Scenario.preds) ++ Scenario.faint)
    = analyze "image/png" (take 5 (Scenario.preds ++ Scenario.preds)).
Proof.
  assert (5 ≤ length (Scenario.preds ++ Scenario.preds))%nat as Hlen by (simpl; lia).
  split; [exact Hlen |].
  exact (analyze_first_five "image/png" _ Scenario.faint Hlen).
Defined.

Lemma response_items_shape (content_type : string) (clf_img : list Prediction) (r : Response) :
  analyze content_type clf_img = inr r →
  (length (items r) ≤ 3)%nat
  ∧ Forall (λ it, servings it = 1
                  ∧ Str.lower (label it) = label it
                  ∧ nutrition it = lookup_nutrition (label it)) (items r).
Proof.
  intros Hr. destruct (analyze_inr _ _ _ Hr) as (_ & p0 & rest & _ & Hitems & _).
  rewrite Hitems. split.
  - rewrite length_map. unfold keep. rewrite length_take. lia.
  - apply Forall_forall. intros it Hit.
    apply list_elem_of_In, in_map_iff in Hit as (p & <- & _).
    unfold Service.item_of. simpl. now rewrite lower_idempotent.
Qed.

(** X3.  Every answer of [analyze] has at most three items; each item has
    one serving, a lower-case label, and the nutrition that
    [lookup_nutrition] gives for its label. *)
Theorem analyze_items_shape (content_type : string) (clf_img : list Prediction) (r : Response) :
  analyze content_type clf_img = inr r →
  (length (items r) ≤ 3)%nat
  ∧ Forall (λ it, servings it = 1
                  ∧ Str.lower (label it) = label it
                  ∧ nutrition it = lookup_nutrition (label it)) (items r).
Proof. apply response_items_shape. Qed.

Lemma analyze_items_shape_witness :
  analyze "image/jpeg" Scenario.preds = inr Scenario.response
  ∧ (length (items Scenario.response) ≤ 3)%nat.
Proof.
  assert (analyze "image/jpeg" Scenario.preds = inr Scenario.response) as Hr
    by by_evaluation.
  split; [exact Hr |].
  exact (proj1 (analyze_items_shape _ _ _ Hr)).
Defined.

(** X4.  Every answer of [analyze] is consistent with its items:
    total_calories is the sum of the items' calories, and the score and the
    tips are those of the key-by-key sums of the items' nutrition. *)
Theorem analyze_totals_consistent (content_type : string) (clf_img : list Prediction)
    (r : Response) :
  analyze content_type clf_img = inr r →
  total_calories r = Spec.sum (map (λ it, calories (nutrition it)) (items r))
  ∧ r_health_score r = health_score (Service.totals_of (items r))
  ∧ tips r = make_tips (Service.totals_of (items r)).
Proof.
  intros Hr. destruct (analyze_inr _ _ _ Hr) as (_ & p0 & rest & _ & _ & Hcal & Hs & Ht).
  auto.
Qed.

Lemma analyze_totals_consistent_witness :
  analyze "image/jpeg" Scenario.preds = inr Scenario.response
  ∧ total_calories Scenario.response
    = Spec.sum (map (λ it, calories (nutrition it)) (items Scenario.response)).
Proof.
  assert (analyze "image/jpeg" Scenario.preds = inr Scenario.response) as Hr
    by by_evaluation.
  split; [exact Hr |].
  exact (proj1 (analyze_totals_consistent _ _ _ Hr)).
Defined.

End ServiceFacts.

Section ServiceScores.

Import Api.

Lemma py_round3_alt (x : Qc) :
  Num.py_round3 x = Num.of_Z (Num.py_round (x * Num.of_Z 1000)) * Num.lit 0.001.
Proof.
  unfold Num.py_round3, Qcdiv. f_equal; by_evaluation.
Qed.

Lemma py_round3_close (x : Qc) :
  Num.py_round3 x - Num.lit 0.0005 ≤ x ∧ x ≤ Num.py_round3 x + Num.lit 0.0005.
Proof.
  rewrite py_round3_alt.
  destruct (py_round_spec (x * Num.of_Z 1000)) as (_ & Hlo & Hhi).
  set (n := Num.py_round (x * Num.of_Z 1000)) in *. clearbody n.
  do 2 qc2q. change (inject_Z 1000) with 1000%Q in *.
  split; lra.
Qed.

Lemma py_round3_mono (x y : Qc) : x ≤ y → Num.py_round3 x ≤ Num.py_round3 y.
Proof.
  intros Hxy. rewrite !py_round3_alt.
  assert (Num.py_round (x * Num.of_Z 1000) ≤ Num.py_round (y * Num.of_Z 1000))%Z as Hn.
  { apply py_round_mono. qc2q. change (inject_Z 1000) with 1000%Q. lra. }
  apply of_Z_le in Hn.
  set (n := Num.of_Z (Num.py_round (x * Num.of_Z 1000))) in *.
  set (m := Num.of_Z (Num.py_round (y * Num.of_Z 1000))) in *.
  clearbody n m. qc2q. lra.
Qed.

(** X5.  The items of an answer of [analyze] are the kept predictions in
    their order: each item has the lower-cased label of its prediction and
    a confidence within 0.0005 of the prediction's score; and every item has
    a confidence of at least 0.15. *)
Theorem analyze_items_of_kept (content_type : string) (clf_img : list Prediction)
    (r : Response) :
  analyze content_type clf_img = inr r →
  ∃ p0 rest,
    take 5 clf_img = p0 :: rest
    ∧ Forall2 (λ it p, label it = Str.lower (p_label p)
                       ∧ confidence it - Num.lit 0.0005 ≤ p_score p
                       ∧ p_score p ≤ confidence it + Num.lit 0.0005)
              (items r) (keep (p_score p0) (take 5 clf_img))
    ∧ Forall (λ it, Num.lit 0.15 ≤ confidence it) (items r).
Proof.
  intros Hr. destruct (analyze_inr _ _ _ Hr) as (_ & p0 & rest & Htake & Hitems & _).
  exists p0, rest. split; [exact Htake |]. rewrite Hitems. split.
  - change (map ?f ?l) with (f <$> l). apply Forall2_fmap_l, Forall_Forall2_diag.
    apply Forall_forall. intros p _. simpl.
    split; [reflexivity |]. apply py_round3_close.
  - apply Forall_forall. intros it Hit.
    apply list_elem_of_In, in_map_iff in Hit as (p & <- & Hp). simpl.
    apply list_elem_of_In in Hp. unfold keep in Hp.
    apply elem_of_take in Hp as (i & Hi & _).
    apply list_elem_of_lookup_2, list_elem_of_filter in Hi as [Ht _].
    assert (Num.lit 0.15 ≤ p_score p) as H15
      by (eapply Qcle_trans; [apply threshold_floor | exact Ht]).
    apply py_round3_mono in H15.
    replace (Num.py_round3 (Num.lit 0.15)) with (Num.lit 0.15) in H15 by by_evaluation.
    exact H15.
Qed.

Lemma analyze_items_of_kept_witness :
  analyze "image/jpeg" Scenario.preds = inr Scenario.response
  ∧ Forall (λ it, Num.lit 0.15 ≤ confidence it) (items Scenario.response).
Proof.
  assert (analyze "image/jpeg" Scenario.preds = inr Scenario.response) as Hr
    by by_evaluation.
  split; [exact Hr |].
  destruct (analyze_items_of_kept _ _ _ Hr) as (p0 & rest & _ & _ & Hall).
  exact Hall.
Defined.

(** X6.  When the best score of a descending prediction list is below 0.15,
    an accepted upload is answered without any item: zero calories, the
    score 100, and the fiber and protein tips. *)
Theorem analyze_faint (content_type : string) (p0 : Prediction) (rest : list Prediction) :
  content_type ∈ allowed_types →
  Spec.descending (p0 :: rest) →
  p_score p0 < Num.lit 0.15 →
  analyze content_type (p0 :: rest) = inr Scenario.no_items.
Proof.
  intros Hct Hdesc Hfaint. rewrite analyze_allowed by exact Hct.
  change (take 5 (p0 :: rest)) with (p0 :: take 4 rest). cbv beta iota zeta.
  assert (keep (p_score p0) (p0 :: take 4 rest) = []) as ->.
  { unfold keep. rewrite filter_none; [reflexivity |].
    apply StronglySorted_inv in Hdesc as [_ Hall].
    assert (∀ q, q ∈ p0 :: rest → p_score q ≤ p_score p0) as Hle.
    { intros q Hq. apply elem_of_cons in Hq as [-> | Hq]; [apply Qcle_refl |].
      rewrite Forall_forall in Hall. now apply Hall. }
    apply Forall_forall. intros q Hq Ht.
    assert (q ∈ p0 :: rest) as Hq'.
    { apply elem_of_cons in Hq as [-> | Hq]; [left | right].
      apply elem_of_take in Hq as (i & Hi & _).
      now apply list_elem_of_lookup_2 in Hi. }
    apply (Qclt_not_le _ _ Hfaint).
    apply Qcle_trans with (p_score q); [| now apply Hle].
    eapply Qcle_trans; [apply threshold_floor | exact Ht]. }
  by_evaluation.
Qed.

Lemma analyze_faint_witness :
  "image/webp" ∈ allowed_types
  ∧ Spec.descending [Scenario.prediction "pizza" 0.14; Scenario.prediction "salad" 0.09]
  ∧ Num.lit 0.14 < Num.lit 0.15
  ∧ analyze "image/webp"
      [Scenario.prediction "pizza" 0.14; Scenario.prediction "salad" 0.09]
    = inr Scenario.no_items.
Proof.
  assert ("image/webp" ∈ allowed_types) as Hct by by_evaluation.
  assert (Spec.descending
            [Scenario.prediction "pizza" 0.14; Scenario.prediction "salad" 0.09]) as Hdesc.
  { unfold Spec.descending.
    repeat first [apply SSorted_cons | apply SSorted_nil | apply Forall_cons | apply Forall_nil];
      simpl; by_evaluation. }
  assert (Num.lit 0.14 < Num.lit 0.15) as Hfaint by by_evaluation.
  split; [exact Hct |]. split; [exact Hdesc |]. split; [exact Hfaint |].
  exact (analyze_faint "image/webp" _ _ Hct Hdesc Hfaint).
Defined.

(** X7.  The score of the service is monotone: totals with no more
    calories, saturated fat and added sugar and no less fiber and protein
    never score lower. *)
Theorem health_score_monotone (total total' : Dict) :
  Service.healthier total total' →
  (health_score total ≤ health_score total')%Z.
Proof.
  intros (Hcal & Hsat & Hsug & Hfib & Hpro). unfold health_score.
  assert (Num.max 0 (calories total' - Num.of_Z 500)
          ≤ Num.max 0 (calories total - Num.of_Z 500)) as Hmax
    by (apply max_mono_r; qc2q; lra).
  set (M := Num.max 0 (calories total - Num.of_Z 500)) in *.
  set (M' := Num.max 0 (calories total' - Num.of_Z 500)) in *.
  clearbody M M'.
  match goal with |- (Z.max 0 (Z.min 100 (Num.py_round ?a))
                      ≤ Z.max 0 (Z.min 100 (Num.py_round ?b)))%Z =>
    assert (a ≤ b) as Hscore by (do 3 qc2q; lra);
    pose proof (py_round_mono a b Hscore) end.
  lia.
Qed.

Lemma health_score_monotone_witness :
  Service.healthier Scenario.pizza (dict 150 12 10 10 3 2 1)
  ∧ (health_score Scenario.pizza ≤ health_score (dict 150 12 10 10 3 2 1))%Z.
Proof.
  assert (Service.healthier Scenario.pizza (dict 150 12 10 10 3 2 1)) as Hh
    by (repeat split; by_evaluation).
  split; [exact Hh | exact (health_score_monotone _ _ Hh)].
Defined.

(** X8.  The tips of the service: at most three, and none exactly when
    the added sugar is below 20, the fiber at least 5 and the protein at
    least 15. *)
Theorem make_tips_none (totals : Dict) :
  (length (make_tips totals) ≤ 3)%nat
  ∧ (make_tips totals = []
     ↔ added_sugar_g totals < Num.of_Z 20
       ∧ Num.of_Z 5 ≤ fiber_g totals
       ∧ Num.of_Z 15 ≤ protein_g totals).
Proof.
  unfold make_tips. split; [repeat case_bool_decide; simpl; lia |]. split.
  - intros Hnil.
    repeat case_bool_decide; simpl in Hnil; try discriminate.
    repeat split;
      [apply Qcnot_le_lt | apply Qcnot_lt_le | apply Qcnot_lt_le]; assumption.
  - intros (Hs & Hf & Hp).
    rewrite (bool_decide_eq_false_2 (Num.of_Z 20 ≤ added_sugar_g totals))
      by now apply Qclt_not_le.
    rewrite (bool_decide_eq_false_2 (fiber_g totals < Num.of_Z 5))
      by now apply Qcle_not_lt.
    rewrite (bool_decide_eq_false_2 (protein_g totals < Num.of_Z 15))
      by now apply Qcle_not_lt.
    reflexivity.
Qed.

End ServiceScores.


(** * More on the card *)

Section CardFacts.

Import ResultCard.


(** The initial adjustments hold, at each index of an item, the item's
    servings, and nothing elsewhere. *)
Lemma initial_lookup_from (l : list FoodItem) (i : nat) (m : gmap nat Qc) (j : nat) :
  reduce (λ initial item index, <[index := servings item]> initial) l i m !! j
  = if bool_decide (i ≤ j < i + length l)%nat
    then servings <$> l !! (j - i)%nat
    else m !! j.
Proof.
  revert i m. induction l as [| x l IH]; intros i m; simpl.
  - rewrite bool_decide_eq_false_2 by lia. reflexivity.
  - rewrite IH. destruct (decide (j = i)) as [-> | Hne].
    + rewrite bool_decide_eq_false_2 by lia.
      rewrite bool_decide_eq_true_2 by lia.
      rewrite lookup_insert_eq, Nat.sub_diag. reflexivity.
    + rewrite lookup_insert_ne by auto.
      repeat case_bool_decide; try lia; try reflexivity.
      replace (j - i)%nat with (S (j - S i)) by lia. reflexivity.
Qed.

Lemma initial_lookup (result : AnalysisResult) (j : nat) :
  initialAdjustments result !! j = servings <$> items result !! j.
Proof.
  unfold initialAdjustments. rewrite initial_lookup_from, Nat.sub_0_r. simpl.
  case_bool_decide as H; [reflexivity |].
  rewrite lookup_empty. symmetry.
  rewrite lookup_ge_None_2 by lia. reflexivity.
Qed.

Lemma initial_multiplier (result : AnalysisResult) (j : nat) (item : FoodItem) :
  items result !! j = Some item →
  servingMultiplier (initialAdjustments result) item j = servings item.
Proof.
  intros Hj. unfold servingMultiplier. rewrite initial_lookup, Hj. simpl.
  case_bool_decide; reflexivity.
Qed.

Lemma multiplier_after_write (adj : gmap nat Qc) (index : nat) (value : Qc) (item : FoodItem) :
  servingMultiplier (updateServing index value adj) item index
  = Num.max (Num.lit 0.25) (Num.min (Num.of_Z 5) value).
Proof.
  unfold servingMultiplier, updateServing. rewrite lookup_insert_eq. simpl.
  rewrite bool_decide_eq_false_2 by apply clamped_not_zero. reflexivity.
Qed.

Lemma multiplier_other (adj : gmap nat Qc) (index j : nat) (value : Qc) (item : FoodItem) :
  j ≠ index →
  servingMultiplier (updateServing index value adj) item j = servingMultiplier adj item j.
Proof.
  intros Hne. unfold servingMultiplier, updateServing.
  rewrite lookup_insert_ne by auto. reflexivity.
Qed.

Lemma initial_aggregate (result : AnalysisResult) :
  adjustedNutrition result (initialAdjustments result)
  = Spec.aggregate (map (λ item, (item, servings item)) (items result)).
Proof.
  rewrite adjustedNutrition_aggregate. f_equal.
  unfold Spec.detected. rewrite <- (imap_const (λ item, (item, servings item))).
  apply imap_ext. intros i item Hi. simpl. f_equal. now apply initial_multiplier.
Qed.


(** X10.  For an answer of the service, the totals the card shows before
    any edit are the totals the service computed: the card's calories are
    the answer's total_calories. *)
Theorem card_totals_match_service (content_type : string)
    (clf_img : list Api.Prediction) (r : Api.Response) :
  Api.analyze content_type clf_img = inr r →
  adjustedNutrition (of_response r) (initialAdjustments (of_response r))
  = Controls.of_dict (Service.totals_of (Api.items r))
  ∧ t_calories (adjustedNutrition (of_response r) (initialAdjustments (of_response r)))
    = Api.total_calories r.
Proof.
  intros Hr.
  destruct (response_items_shape _ _ _ Hr) as [_ Hshape].
  destruct (analyze_inr _ _ _ Hr) as (_ & _ & _ & _ & _ & Hcal & _).
  assert (adjustedNutrition (of_response r) (initialAdjustments (of_response r))
          = Controls.of_dict (Service.totals_of (Api.items r))) as Hn.
  { rewrite initial_aggregate. clear Hcal Hr.
    unfold Spec.aggregate, Spec.total, Controls.of_dict, Service.totals_of, of_response.
    simpl. rewrite !map_map. simpl.
    induction Hshape as [| it l (Hserv & _) _ IH]; [reflexivity |].
    injection IH as IH1 IH2 IH3 IH4 IH5 IH6 IH7.
    simpl. rewrite Hserv. unfold Spec.sum in *. simpl.
    rewrite IH1, IH2, IH3, IH4, IH5, IH6, IH7.
    f_equal; try ring.
    all: unfold Num.js_or; case_bool_decide as Hz; [rewrite Hz |]; ring. }
  split; [exact Hn |]. rewrite Hn, Hcal. reflexivity.
Qed.

End CardFacts.

Section CardEdits.

Import ResultCard.

Lemma card_totals_match_service_witness :
  Api.analyze "image/jpeg" Scenario.preds = inr Scenario.response
  ∧ t_calories (adjustedNutrition Scenario.result (initialAdjustments Scenario.result))
    = Num.of_Z 435.
Proof.
  assert (Api.analyze "image/jpeg" Scenario.preds = inr Scenario.response) as Hr
    by by_evaluation.
  split; [exact Hr |].
  exact (proj2 (card_totals_match_service _ _ _ Hr)).
Defined.

(** X11.  Writing a serving at an index that has no item changes nothing
    of what the card shows. *)
Theorem edit_out_of_range (result : AnalysisResult) (adj : gmap nat Qc)
    (index : nat) (value : Qc) :
  (length (items result) ≤ index)%nat →
  render result (updateServing index value adj) = render result adj.
Proof.
  intros Hlen. apply render_ext. intros i item Hi.
  apply multiplier_other. apply lookup_lt_Some in Hi. lia.
Qed.

Lemma edit_out_of_range_witness :
  (length (items Scenario.result) ≤ 2)%nat
  ∧ render Scenario.result (updateServing 2 (Num.of_Z 3) (initialAdjustments Scenario.result))
    = render Scenario.result (initialAdjustments Scenario.result).
Proof.
  assert (length (items Scenario.result) ≤ 2)%nat as Hlen by (simpl; lia).
  split; [exact Hlen | exact (edit_out_of_range _ _ 2%nat (Num.of_Z 3) Hlen)].
Defined.




(** X13.  Whatever the history of edits, the multiplier of every item is
    the item's own servings or a number of [0.25, 5]; so it stays in
    [0.25, 5] when the result's servings are. *)
Theorem replay_keeps_range (result : AnalysisResult) (edits : list (nat * Qc))
    (index : nat) (item : FoodItem) :
  items result !! index = Some item →
  let m := servingMultiplier (Spec.replay edits (initialAdjustments result)) item index in
  m = servings item ∨ (Num.lit 0.25 ≤ m ∧ m ≤ Num.of_Z 5).
Proof.
  intros Hitem. unfold Spec.replay.
  assert (∀ adj,
    (servingMultiplier adj item index = servings item
     ∨ (Num.lit 0.25 ≤ servingMultiplier adj item index
        ∧ servingMultiplier adj item index ≤ Num.of_Z 5)) →
    let m := servingMultiplier
               (foldl (λ adj e, updateServing e.1 e.2 adj) adj edits) item index in
    m = servings item ∨ (Num.lit 0.25 ≤ m ∧ m ≤ Num.of_Z 5)) as Hinv.
  { induction edits as [| [i v] edits IH]; intros adj Hadj; [exact Hadj |].
    simpl. apply IH. simpl.
    destruct (decide (index = i)) as [-> | Hne].
    - right. rewrite multiplier_after_write.
      destruct (clamp_serving v) as (Hlo & Hhi & _). auto.
    - rewrite multiplier_other by exact Hne. exact Hadj. }
  apply Hinv. left. now apply initial_multiplier.
Qed.

Lemma replay_keeps_range_witness :
  items Scenario.result !! 1%nat = Some Samples.salad
  ∧ Num.lit 0.25
    ≤ servingMultiplier (Spec.replay Scenario.history2 (initialAdjustments Scenario.result))
        Samples.salad 1.
Proof.
  assert (items Scenario.result !! 1%nat = Some Samples.salad) as Hitem by reflexivity.
  split; [exact Hitem |].
  destruct (replay_keeps_range Scenario.result Scenario.history2 1 Samples.salad Hitem)
    as [Heq | [Hlo _]]; [| exact Hlo].
  rewrite Heq. by_evaluation.
Defined.

(** X14.  The serving buttons.  An enabled "Increase" raises the item's
    serving and an enabled "Decrease" lowers it, both landing in [0.25, 5];
    from a serving of [0.25, 4.75], "Increase" adds exactly 0.25 and a
    following "Decrease" gives the serving back. *)
Theorem serving_buttons (adj : gmap nat Qc) (item : FoodItem) (index : nat) :
  let m := Controls.currentServing adj item index in
  let up := Controls.currentServing (Controls.increase adj item index) item index in
  let down := Controls.currentServing (Controls.decrease adj item index) item index in
  (Controls.increaseDisabled adj item index = false →
     m < up ∧ Num.lit 0.25 ≤ up ∧ up ≤ Num.of_Z 5)
  ∧ (Controls.decreaseDisabled adj item index = false →
     down < m ∧ Num.lit 0.25 ≤ down ∧ down ≤ Num.of_Z 5)
  ∧ (Num.lit 0.25 ≤ m → m ≤ Num.lit 4.75 →
     up = m + Num.lit 0.25
     ∧ Controls.currentServing
         (Controls.decrease (Controls.increase adj item index) item index) item index
       = m).
Proof.
  intros m up down.
  assert (∀ a v, Controls.currentServing (updateServing index v a) item index
                 = Num.max (Num.lit 0.25) (Num.min (Num.of_Z 5) v)) as Hwrite
    by (intros; apply multiplier_after_write).
  assert (up = Num.max (Num.lit 0.25) (Num.min (Num.of_Z 5) (m + Num.lit 0.25))) as Hup
    by apply Hwrite.
  assert (down = Num.max (Num.lit 0.25) (Num.min (Num.of_Z 5) (m - Num.lit 0.25))) as Hdown
    by apply Hwrite.
  destruct (clamp_serving (m + Num.lit 0.25)) as (Hulo & Huhi & Huin & Hubelow & Huabove).
  destruct (clamp_serving (m - Num.lit 0.25)) as (Hdlo & Hdhi & Hdin & Hdbelow & Hdabove).
  cbv zeta in *. rewrite <- Hup in *. rewrite <- Hdown in *.
  split; [| split].
  - intros Hen. apply bool_decide_eq_false in Hen. apply Qcnot_le_lt in Hen. fold m in Hen.
    split; [| auto].
    destruct (Qclt_le_dec (m + Num.lit 0.25) (Num.lit 0.25)) as [Hb | Hb];
      [| destruct (Qclt_le_dec (Num.of_Z 5) (m + Num.lit 0.25)) as [Ha | Ha]].
    + rewrite (Hubelow Hb). clear - Hb. qc2q. lra.
    + rewrite (Huabove Ha). exact Hen.
    + rewrite (Huin Hb Ha). clear. qc2q. lra.
  - intros Hen. apply bool_decide_eq_false in Hen. apply Qcnot_le_lt in Hen. fold m in Hen.
    split; [| auto].
    destruct (Qclt_le_dec (Num.of_Z 5) (m - Num.lit 0.25)) as [Ha | Ha];
      [| destruct (Qclt_le_dec (m - Num.lit 0.25) (Num.lit 0.25)) as [Hb | Hb]].
    + rewrite (Hdabove Ha). clear - Ha. qc2q. lra.
    + rewrite (Hdbelow Hb). exact Hen.
    + rewrite (Hdin Hb Ha). clear. qc2q. lra.
  - intros Hlo Hhi.
    assert (up = m + Num.lit 0.25) as Hstep.
    { apply Huin; clear - Hlo Hhi; qc2qz; lra. }
    split; [exact Hstep |].
    unfold Controls.decrease. rewrite Hwrite. fold up. rewrite Hstep.
    replace (m + Num.lit 0.25 - Num.lit 0.25) with m by ring.
    destruct (clamp_serving m) as (_ & _ & Hmin & _).
    apply Hmin; [exact Hlo |]. clear - Hhi. qc2qz. lra.
Qed.

Lemma serving_buttons_witness :
  Controls.increaseDisabled ∅ Samples.salad 0
  = false
  ∧ Controls.currentServing
      (Controls.increase ∅ Samples.salad 0)
      Samples.salad 0
    = Num.lit 1.25.
Proof.
  split; [reflexivity |].
  destruct (serving_buttons ∅ Samples.salad 0)
    as (_ & _ & Hstep).
  destruct Hstep as [Hup _]; [by_evaluation | by_evaluation |].
  rewrite Hup. by_evaluation.
Defined.

(** X15.  A result without items: whatever the adjustments say, the card
    shows zero totals and the recomputed score 100; its badge shows the
    score of the result, and the note "Adjusted from original" appears,
    with the result's score and calories, when that score is not 100. *)
Theorem empty_result_view (result : AnalysisResult) (adj : gmap nat Qc) :
  items result = [] →
  render result adj
  = mkView (mkTotals 0 0 0 0 0 0 0) 0 100 [] (tips result) (health_score result)
      (if bool_decide (health_score result = 100%Z) then None
       else Some (health_score result, total_calories result)).
Proof.
  intros Hnil.
  assert (adjustedNutrition result adj = mkTotals 0 0 0 0 0 0 0) as Hn
    by (unfold adjustedNutrition; now rewrite Hnil).
  assert (adjustedHealthScore result adj = 100%Z) as Hs
    by (unfold adjustedHealthScore; rewrite Hn, Hnil; reflexivity).
  unfold render. rewrite Hs, Hn, Hnil. simpl. f_equal.
  repeat case_bool_decide; congruence.
Qed.

Lemma empty_result_view_witness :
  items (of_response Scenario.no_items) = []
  ∧ v_health_score (render (of_response Scenario.no_items) ∅) = 100%Z
  ∧ v_original (render (of_response Scenario.no_items) ∅) = None.
Proof.
  split; [reflexivity |].
  rewrite (empty_result_view (of_response Scenario.no_items) ∅ eq_refl).
  split; reflexivity.
Defined.

End CardEdits.

(** * More on the macro bars *)

Section BarFacts.

Import MacroBars.

Lemma this_div (a b : Qc) : (this (a / b) == this a / this b)%Q.
Proof.
  unfold Qcdiv. rewrite this_mult. unfold Qcinv, Q2Qc. simpl.
  now rewrite Qred_correct.
Qed.

Lemma percent_positive (cals total : Qc) :
  0 < total → percent cals total = Some (cals / total * Num.of_Z 100).
Proof.
  intros Hpos. unfold percent, Num.js_div.
  rewrite bool_decide_eq_true_2 by exact Hpos.
  rewrite bool_decide_eq_false_2; [reflexivity |].
  intros ->. exact (Qclt_not_le _ _ Hpos (Qcle_refl 0)).
Qed.

Lemma percent_range (cals total : Qc) :
  0 ≤ cals → cals ≤ total →
  ∃ p, percent cals total = Some p ∧ 0 ≤ p ∧ p ≤ Num.of_Z 100 ∧ Bars.width p = p.
Proof.
  intros Hcals Hle.
  assert (∀ p, p ≤ Num.of_Z 100 → Bars.width p = p) as Hwidth.
  { intros p Hp. unfold Bars.width.
    destruct (min_case p (Num.of_Z 100)) as [[_ ->] | [H _]]; [reflexivity |].
    exfalso. exact (Qclt_not_le _ _ H Hp). }
  destruct (Qclt_le_dec 0 total) as [Hpos | Hnon].
  - rewrite percent_positive by exact Hpos. eexists. split; [reflexivity |].
    assert (0 ≤ cals / total * Num.of_Z 100 ∧ cals / total * Num.of_Z 100 ≤ Num.of_Z 100)
      as [H0 H100].
    { unfold Qcle, Qclt in *. rewrite this_mult, this_div, this_of_Z.
      change (this 0) with 0%Q in *. change (inject_Z 100) with 100%Q.
      assert (0 <= this cals / this total)%Q as Hq0
        by (apply Qle_shift_div_l; [exact Hpos | lra]).
      assert (this cals / this total <= 1)%Q as Hq1
        by (apply Qle_shift_div_r; [exact Hpos | lra]).
      split; lra. }
    auto.
  - exists 0. unfold percent.
    rewrite bool_decide_eq_false_2 by now apply Qcle_not_lt.
    split; [reflexivity |]. split; [apply Qcle_refl |].
    assert (0 ≤ Num.of_Z 100) as H by by_evaluation. auto.
Qed.

(** X17.  For non-negative grams of protein, carbs and fat, each percentage
    is a number of [0, 100], so the cap of the bar width at 100 never cuts
    a bar. *)
Theorem percentages_in_range (nutrition : MacroData) :
  0 ≤ protein_g nutrition → 0 ≤ carbs_g nutrition → 0 ≤ fat_g nutrition →
  ∃ p c f,
    proteinPercent nutrition = Some p
    ∧ carbsPercent nutrition = Some c
    ∧ fatPercent nutrition = Some f
    ∧ (0 ≤ p ∧ p ≤ Num.of_Z 100 ∧ Bars.width p = p)
    ∧ (0 ≤ c ∧ c ≤ Num.of_Z 100 ∧ Bars.width c = c)
    ∧ (0 ≤ f ∧ f ≤ Num.of_Z 100 ∧ Bars.width f = f).
Proof.
  intros Hp Hc Hf. unfold proteinPercent, carbsPercent, fatPercent, totalMacroCals.
  set (a := protein_g nutrition * Num.of_Z 4).
  set (b := carbs_g nutrition * Num.of_Z 4).
  set (d := fat_g nutrition * Num.of_Z 9).
  assert (0 ≤ a ∧ 0 ≤ b ∧ 0 ≤ d) as (Ha & Hb & Hd).
  { subst a b d. clear - Hp Hc Hf. repeat split; qc2qz; change (this 0) with 0%Q in *; lra. }
  clearbody a b d.
  destruct (percent_range a (a + b + d)) as (p & Hpp & Hp0 & Hp1 & Hpw);
    [exact Ha | clear - Hb Hd; qc2q; change (this 0) with 0%Q in *; lra |].
  destruct (percent_range b (a + b + d)) as (c & Hcp & Hc0 & Hc1 & Hcw);
    [exact Hb | clear - Ha Hd; qc2q; change (this 0) with 0%Q in *; lra |].
  destruct (percent_range d (a + b + d)) as (f & Hfp & Hf0 & Hf1 & Hfw);
    [exact Hd | clear - Ha Hb; qc2q; change (this 0) with 0%Q in *; lra |].
  exists p, c, f. auto 10.
Qed.

Lemma percentages_in_range_witness :
  0 ≤ Num.of_Z 16 ∧ 0 ≤ Num.of_Z 46 ∧ 0 ≤ Num.of_Z 20
  ∧ ∃ p, proteinPercent
           (mkMacroData (Num.of_Z 435) (Num.of_Z 16) (Num.of_Z 46) (Num.of_Z 20) None)
         = Some p ∧ p ≤ Num.of_Z 100.
Proof.
  assert (0 ≤ Num.of_Z 16) as Hp by by_evaluation.
  assert (0 ≤ Num.of_Z 46) as Hc by by_evaluation.
  assert (0 ≤ Num.of_Z 20) as Hf by by_evaluation.
  split; [exact Hp |]. split; [exact Hc |]. split; [exact Hf |].
  destruct (percentages_in_range
              (mkMacroData (Num.of_Z 435) (Num.of_Z 16) (Num.of_Z 46) (Num.of_Z 20) None)
              Hp Hc Hf) as (p & c & f & Hpp & _ & _ & (_ & Hp1 & _) & _).
  exists p. auto.
Defined.

End BarFacts.

(** * The proxy route *)

Section RouteFacts.

Import Http Route.

Lemma first_truthy_truthy (errorData : Json) (first second : string) (fallback value : Json) :
  truthy (Some fallback) = true →
  first_truthy errorData first second fallback = inr value →
  truthy (Some value) = true.
Proof.
  intros Hfb. unfold first_truthy.
  destruct (get errorData first) as [e | a]; [discriminate |].
  destruct (truthy a) eqn:Ha.
  - intros [= <-]. destruct a; [exact Ha | discriminate].
  - destruct (get errorData second) as [e | b]; [discriminate |].
    destruct (truthy b) eqn:Hb; intros [= <-]; [| exact Hfb].
    destruct b; [exact Hb | discriminate].
Qed.

(** What [POST] does with a request that passes its checks. *)
Lemma POST_valid (image : File) (backend : File → Fetched) :
  type image ∈ allowedTypes → (size image ≤ maxSize)%N →
  POST (inr (Some image)) backend
  = match backend image with
    | FetchThrows error => (caught error, [image])
    | Responds status body =>
      if negb (ok status)
      then
        match first_truthy (json_or_unknown body) "detail" "error" (JStr "Analysis failed") with
        | inl error => (caught error, [image])
        | inr error => (error_json error status, [image])
        end
      else
        match body with
        | inl error => (caught error, [image])
        | inr result =>
          (mkNextResponse 200 result [("Cache-Control", "no-store, max-age=0")], [image])
        end
    end.
Proof.
  intros Htype Hsize. unfold POST.
  rewrite bool_decide_eq_true_2 by exact Htype. simpl.
  rewrite bool_decide_eq_false_2 by lia. reflexivity.
Qed.

Lemma forwarded_valid (request : Exn + option File) (backend : File → Fetched) (image : File) :
  image ∈ (POST request backend).2 →
  request = inr (Some image) ∧ type image ∈ allowedTypes ∧ (size image ≤ maxSize)%N.
Proof.
  destruct request as [e | [f |]]; [intros Hin; inversion Hin | | intros Hin; inversion Hin].
  unfold POST. case_bool_decide as Htype; simpl; [| intros Hin; inversion Hin].
  case_bool_decide as Hsize; [intros Hin; inversion Hin |].
  assert (∀ x : NextResponse * list File, x.2 = [f] → image ∈ x.2 →
            inr (Some f) = @inr Exn _ (Some image) ∧ type image ∈ allowedTypes
            ∧ (size image ≤ maxSize)%N) as Hone.
  { intros x -> Hin. apply list_elem_of_singleton in Hin as ->.
    split; [reflexivity |]. split; [exact Htype | lia]. }
  apply Hone.
  destruct (backend f) as [e | s body]; [reflexivity |].
  destruct (negb (ok s)); [destruct (first_truthy _ _ _ _) | destruct body]; reflexivity.
Qed.

(** X18.  The proxy forwards at most one image, and only the request's own
    image after it passed both checks: an accepted type and a size of at
    most 8 MB.  A request without image, with another type or with a larger
    file is answered with status 400 and nothing is sent to the backend. *)
Theorem proxy_forwards_valid_only (request : Exn + option File) (backend : File → Fetched) :
  (length (POST request backend).2 ≤ 1)%nat
  ∧ (∀ image, image ∈ (POST request backend).2 →
       request = inr (Some image)
       ∧ type image ∈ allowedTypes
       ∧ (size image ≤ maxSize)%N)
  ∧ (request = inr None
     ∨ (∃ image, request = inr (Some image)
                 ∧ ((type image ∉ allowedTypes) ∨ (maxSize < size image)%N)) →
     status (POST request backend).1 = 400%N ∧ (POST request backend).2 = []).
Proof.
  destruct request as [e | [image |]].
  - simpl. split; [lia |]. split.
    + intros image Hin. inversion Hin.
    + intros [H | (image & H & _)]; discriminate.
  - destruct (decide (type image ∈ allowedTypes)) as [Htype | Htype];
      [destruct (decide (size image ≤ maxSize)%N) as [Hsize | Hsize] |].
    + rewrite POST_valid by assumption.
      assert (∃ response, (match backend image with
        | FetchThrows error => (caught error, [image])
        | Responds status body =>
          if negb (ok status)
          then
            match first_truthy (json_or_unknown body) "detail" "error" (JStr "Analysis failed") with
            | inl error => (caught error, [image])
            | inr error => (error_json error status, [image])
            end
          else
            match body with
            | inl error => (caught error, [image])
            | inr result =>
              (mkNextResponse 200 result [("Cache-Control", "no-store, max-age=0")], [image])
            end
        end) = (response, [image])) as [response ->].
      { destruct (backend image) as [e | s body]; [eauto |].
        destruct (negb (ok s));
          [destruct (first_truthy _ _ _ _) | destruct body]; eauto. }
      simpl. split; [lia |]. split.
      * intros f Hin. apply list_elem_of_singleton in Hin as ->. auto.
      * intros [H | (f & [= <-] & [H | H])]; [discriminate | contradiction | lia].
    + unfold POST. rewrite bool_decide_eq_true_2 by exact Htype. simpl.
      rewrite bool_decide_eq_true_2 by lia. simpl.
      split; [lia |]. split; [intros f Hin; inversion Hin | auto].
    + unfold POST. rewrite bool_decide_eq_false_2 by exact Htype. simpl.
      split; [lia |]. split; [intros f Hin; inversion Hin | auto].
  - simpl. split; [lia |]. split; [intros f Hin; inversion Hin | auto].
Qed.

Lemma proxy_forwards_valid_only_witness :
  (maxSize < 9000000)%N
  ∧ status (POST (inr (Some (mkFile "meal.jpg" "image/jpeg" 9000000)))
                 (λ _, Responds 200 (inr JNull))).1 = 400%N
  ∧ (POST (inr (Some (mkFile "meal.jpg" "image/jpeg" 9000000)))
          (λ _, Responds 200 (inr JNull))).2 = [].
Proof.
  assert (maxSize < 9000000)%N as Hbig by (vm_compute; reflexivity).
  split; [exact Hbig |].
  apply (proj2 (proj2 (proxy_forwards_valid_only
                         (inr (Some (mkFile "meal.jpg" "image/jpeg" 9000000)))
                         (λ _, Responds 200 (inr JNull))))).
  right. eexists. split; [reflexivity |]. right. exact Hbig.
Defined.

(** X19.  The proxy answers 200 only with the parsed body of a successful
    answer of the backend to the request's image; on such an answer it
    returns that body unchanged, with caching disabled. *)
Theorem proxy_success (request : Exn + option File) (backend : File → Fetched) :
  (status (POST request backend).1 = 200%N →
   ∃ image s,
     request = inr (Some image)
     ∧ ok s = true
     ∧ backend image = Responds s (inr (json (POST request backend).1)))
  ∧ (∀ image s result,
       request = inr (Some image) →
       type image ∈ allowedTypes → (size image ≤ maxSize)%N →
       backend image = Responds s (inr result) → ok s = true →
       POST request backend
       = (mkNextResponse 200 result [("Cache-Control", "no-store, max-age=0")], [image])).
Proof.
  split.
  - assert (∀ e, status (caught e) ≠ 200%N) as Hcaught.
    { intros e. unfold caught. destruct (_ && _); discriminate. }
    destruct request as [e | [image |]].
    + simpl. intros H. now apply Hcaught in H.
    + destruct (decide (type image ∈ allowedTypes)) as [Htype | Htype];
        [destruct (decide (size image ≤ maxSize)%N) as [Hsize | Hsize] |].
      * rewrite POST_valid by assumption.
        destruct (backend image) as [e | s body] eqn:Hb; simpl.
        { intros H. now apply Hcaught in H. }
        destruct (ok s) eqn:Hok; simpl.
        -- destruct body as [e | result]; simpl.
           ++ intros H. now apply Hcaught in H.
           ++ intros _. exists image, s. auto.
        -- destruct (first_truthy _ _ _ _) as [e | v]; simpl.
           ++ intros H. now apply Hcaught in H.
           ++ intros ->. discriminate.
      * unfold POST. rewrite bool_decide_eq_true_2 by exact Htype. simpl.
        rewrite bool_decide_eq_true_2 by lia. discriminate.
      * unfold POST. rewrite bool_decide_eq_false_2 by exact Htype. discriminate.
    + discriminate.
  - intros image s result -> Htype Hsize Hb Hok.
    rewrite POST_valid by assumption. rewrite Hb, Hok. reflexivity.
Qed.

Lemma proxy_success_witness :
  status (POST (inr (Some (mkFile "meal.png" "image/png" 1024)))
               (λ _, Responds 201 (inr (JObj [("health_score", JNum (Num.of_Z 62))])))).1
  = 200%N
  ∧ ∃ image s,
      ok s = true
      ∧ (λ _ : File, Responds 201 (inr (JObj [("health_score", JNum (Num.of_Z 62))]))) image
        = Responds s (inr (JObj [("health_score", JNum (Num.of_Z 62))])).
Proof.
  assert (status (POST (inr (Some (mkFile "meal.png" "image/png" 1024)))
                   (λ _, Responds 201 (inr (JObj [("health_score", JNum (Num.of_Z 62))])))).1
          = 200%N) as H200 by reflexivity.
  split; [exact H200 |].
  destruct (proj1 (proxy_success _ _) H200) as (image & s & _ & Hok & Hb).
  exists image, s. split; [exact Hok | exact Hb].
Defined.

(** X20.  An error answer of the backend whose status a response with a
    body may have (300..599 without 304) passes through the proxy with that
    status: unless the body is [null], the proxy answers with the backend's
    status and an object whose [error] is the body's [detail] if truthy,
    else its [error] if truthy, else "Analysis failed" (and "Unknown error"
    for a body that is no JSON); the [error] is never empty. *)
Theorem proxy_passes_errors (image : File) (backend : File → Fetched)
    (s : N) (body : Exn + Json) :
  type image ∈ allowedTypes → (size image ≤ maxSize)%N →
  backend image = Responds s body → ok s = false →
  body_status s = true →
  json_or_unknown body ≠ JNull →
  ∃ error,
    POST (inr (Some image)) backend = (error_json error s, [image])
    ∧ truthy (Some error) = true
    ∧ first_truthy (json_or_unknown body) "detail" "error" (JStr "Analysis failed")
      = inr error
    ∧ (∀ e, body = inl e → error = JStr "Unknown error").
Proof.
  intros Htype Hsize Hb Hok _ Hnull.
  rewrite POST_valid by assumption. rewrite Hb, Hok. simpl.
  destruct (first_truthy (json_or_unknown body) "detail" "error" (JStr "Analysis failed"))
    as [e | error] eqn:Hft.
  - exfalso. unfold first_truthy in Hft.
    destruct (json_or_unknown body); try contradiction; simpl in Hft;
      repeat match type of Hft with
             | context [if ?b then _ else _] => destruct b
             end; discriminate.
  - exists error. split; [reflexivity |]. split.
    + eapply first_truthy_truthy; [| exact Hft]. reflexivity.
    + split; [reflexivity |]. intros e ->. simpl in Hft. now injection Hft as <-.
Qed.

Lemma proxy_passes_errors_witness :
  "image/webp" ∈ allowedTypes ∧ (2048 ≤ maxSize)%N ∧ ok 400 = false
  ∧ body_status 400 = true
  ∧ POST (inr (Some (mkFile "meal.webp" "image/webp" 2048)))
         (λ _, Responds 400 (inr (JObj [("detail", JStr "Unsupported image type")])))
    = (error_json (JStr "Unsupported image type") 400,
       [mkFile "meal.webp" "image/webp" 2048]).
Proof.
  assert ("image/webp" ∈ allowedTypes) as Htype by by_evaluation.
  assert (2048 ≤ maxSize)%N as Hsize by (vm_compute; discriminate).
  split; [exact Htype |]. split; [exact Hsize |]. split; [reflexivity |].
  split; [reflexivity |].
  destruct (proxy_passes_errors (mkFile "meal.webp" "image/webp" 2048)
              (λ _, Responds 400 (inr (JObj [("detail", JStr "Unsupported image type")])))
              400 (inr (JObj [("detail", JStr "Unsupported image type")]))
              Htype Hsize eq_refl eq_refl eq_refl) as (error & Hpost & _ & Hft & _);
    [discriminate |].
  rewrite Hpost. injection Hft as <-. reflexivity.
Defined.

(** X21.  The proxy and the service accept the same content types: a
    type is one of the proxy's exactly when it is one of the service's.  So
    an image the proxy forwards is never refused by [analyze] for its type,
    and an upload of a type the proxy refuses would be refused by [analyze]
    with its 400 "Unsupported image type" as well. *)
Theorem proxy_types_accepted (request : Exn + option File) (backend : File → Fetched)
    (image : File) (clf_img : list Api.Prediction) :
  image ∈ (POST request backend).2 →
  (∀ content_type, content_type ∈ allowedTypes ↔ content_type ∈ Api.allowed_types)
  ∧ type image ∈ Api.allowed_types
  ∧ (∀ status detail,
       Api.analyze (type image) clf_img ≠ inl (Api.HTTPException status detail))
  ∧ (∀ content_type preds,
       (content_type ∉ allowedTypes) →
       Api.analyze content_type preds
       = inl (Api.HTTPException 400 "Unsupported image type")).
Proof.
  intros Hin.
  destruct (forwarded_valid request backend image Hin) as (_ & Htype & _).
  assert (type image ∈ Api.allowed_types) as Hct by exact Htype.
  split; [intros content_type; reflexivity |].
  split; [exact Hct |]. split.
  - intros status detail H.
    destruct (analyze_http_unsupported _ _ _ _ H) as [Hn _]. contradiction.
  - intros content_type preds Hn. unfold Api.analyze.
    rewrite bool_decide_eq_false_2; [reflexivity | exact Hn].
Qed.

End RouteFacts.

Section RouteWitness.

Import Http Route.

Lemma proxy_types_accepted_witness :
  mkFile "meal.png" "image/png" 1024
    ∈ (POST (inr (Some (mkFile "meal.png" "image/png" 1024)))
            (λ _, Responds 200 (inr JNull))).2
  ∧ "image/png" ∈ Api.allowed_types.
Proof.
  assert (mkFile "meal.png" "image/png" 1024
            ∈ (POST (inr (Some (mkFile "meal.png" "image/png" 1024)))
                    (λ _, Responds 200 (inr JNull))).2) as Hin
    by (vm_compute; left).
  split; [exact Hin |].
  exact (proj1 (proj2 (proxy_types_accepted _ _ _ [] Hin))).
Defined.

End RouteWitness.

(** * The upload mutation *)

Section PageFacts.

Import Http Page.

(** The end of [mutationFn] once a response is there. *)
Lemma mutation_direct (fetch : Endpoint → Fetched) (s : N) (body : Exn + Json) :
  fetch Direct = Responds s body →
  mutationFn fetch
  = (if negb (ok s)
     then match first_truthy (json_or_unknown body) "error" "detail"
                  (JStr ("HTTP " +:+ pretty s)) with
          | inl error => Rejected error
          | inr value => RejectedWith value
          end
     else match body with
          | inl error => Rejected error
          | inr data => Resolved data
          end,
     [Direct]).
Proof.
  intros Hd. unfold mutationFn. rewrite Hd.
  destruct (negb (ok s)); [destruct (first_truthy _ _ _ _) | destruct body]; reflexivity.
Qed.

Lemma mutation_proxy (fetch : Endpoint → Fetched) (e : Exn) (s : N) (body : Exn + Json) :
  fetch Direct = FetchThrows e → fetch Proxy = Responds s body →
  mutationFn fetch
  = (if negb (ok s)
     then match first_truthy (json_or_unknown body) "error" "detail"
                  (JStr ("HTTP " +:+ pretty s)) with
          | inl error => Rejected error
          | inr value => RejectedWith value
          end
     else match body with
          | inl error => Rejected error
          | inr data => Resolved data
          end,
     [Direct; Proxy]).
Proof.
  intros Hd Hp. unfold mutationFn. rewrite Hd, Hp.
  destruct (negb (ok s)); [destruct (first_truthy _ _ _ _) | destruct body]; reflexivity.
Qed.


(** X22.  The mutation fetches the service directly first, and the proxy
    route exactly when that fetch throws; an answer of the service, also an
    error answer, is never retried through the proxy. *)
Theorem mutation_fallback (fetch : Endpoint → Fetched) :
  (∀ s body, fetch Direct = Responds s body → (mutationFn fetch).2 = [Direct])
  ∧ (∀ e, fetch Direct = FetchThrows e → (mutationFn fetch).2 = [Direct; Proxy])
  ∧ (Proxy ∈ (mutationFn fetch).2 ↔ ∃ e, fetch Direct = FetchThrows e).
Proof.
  assert (∀ s body, fetch Direct = Responds s body → (mutationFn fetch).2 = [Direct]) as H1
    by (intros s body Hd; now rewrite (mutation_direct fetch s body Hd)).
  assert (∀ e, fetch Direct = FetchThrows e → (mutationFn fetch).2 = [Direct; Proxy]) as H2.
  { intros e Hd. destruct (fetch Proxy) as [e' | s body] eqn:Hp.
    - unfold mutationFn. now rewrite Hd, Hp.
    - now rewrite (mutation_proxy fetch e s body Hd Hp). }
  split; [exact H1 |]. split; [exact H2 |].
  destruct (fetch Direct) as [e | s body] eqn:Hd.
  - rewrite (H2 e eq_refl). split; [eauto | intros _; right; left].
  - rewrite (H1 s body eq_refl). split.
    + intros Hin. apply list_elem_of_singleton in Hin. discriminate.
    + intros [e He]. discriminate.
Qed.

Lemma mutation_fallback_witness :
  (mutationFn (λ endpoint,
     match endpoint with
     | Direct => FetchThrows (mkExn true "Failed to fetch")
     | Proxy => Responds 200 (inr JNull)
     end)).2 = [Direct; Proxy].
Proof.
  apply (proj1 (proj2 (mutation_fallback _)) (mkExn true "Failed to fetch")).
  reflexivity.
Defined.

(** X23.  The mutation resolves only with the parsed body of a successful
    response of an endpoint it fetched. *)
Theorem mutation_resolves_ok (fetch : Endpoint → Fetched) (data : Json) :
  (mutationFn fetch).1 = Resolved data →
  ∃ endpoint s,
    endpoint ∈ (mutationFn fetch).2
    ∧ fetch endpoint = Responds s (inr data)
    ∧ ok s = true.
Proof.
  destruct (fetch Direct) as [e | s body] eqn:Hd.
  - destruct (fetch Proxy) as [e' | s body] eqn:Hp.
    + unfold mutationFn. rewrite Hd, Hp. discriminate.
    + rewrite (mutation_proxy fetch e s body Hd Hp). simpl.
      destruct (ok s) eqn:Hok; simpl.
      * destruct body as [e' | d]; [discriminate |]. intros [= <-].
        exists Proxy, s. split; [right; left | auto].
      * destruct (first_truthy _ _ _ _); discriminate.
  - rewrite (mutation_direct fetch s body Hd). simpl.
    destruct (ok s) eqn:Hok; simpl.
    + destruct body as [e' | d]; [discriminate |]. intros [= <-].
      exists Direct, s. split; [left | auto].
    + destruct (first_truthy _ _ _ _); discriminate.
Qed.

Lemma mutation_resolves_ok_witness :
  (mutationFn (λ _, Responds 200 (inr (JStr "ok")))).1 = Resolved (JStr "ok")
  ∧ ∃ endpoint s,
      (λ _ : Endpoint, Responds 200 (inr (JStr "ok"))) endpoint = Responds s (inr (JStr "ok"))
      ∧ ok s = true.
Proof.
  assert ((mutationFn (λ _, Responds 200 (inr (JStr "ok")))).1 = Resolved (JStr "ok"))
    as Hres by reflexivity.
  split; [exact Hres |].
  destruct (mutation_resolves_ok _ _ Hres) as (endpoint & s & _ & Hf & Hok).
  exists endpoint, s. auto.
Defined.



End PageFacts.


(** * Substrings and the caution words *)

Section Substrings.

Import ResultCard.

Lemma append_nil (s : string) : "" +:+ s = s.
Proof. reflexivity. Qed.

Lemma append_cons (c : ascii) (s t : string) : String c s +:+ t = String c (s +:+ t).
Proof. reflexivity. Qed.

Lemma substring_prefix (s post : string) :
  substring 0 (String.length s) (s +:+ post) = s.
Proof.
  induction s as [| c s IH].
  - rewrite append_nil. destruct post; reflexivity.
  - rewrite append_cons. simpl. rewrite IH. reflexivity.
Qed.

Lemma substring_middle (pre s post : string) :
  substring (String.length pre) (String.length s) (pre +:+ s +:+ post) = s.
Proof.
  induction pre as [| c pre IH].
  - rewrite append_nil. apply substring_prefix.
  - rewrite append_cons. simpl. exact IH.
Qed.

Lemma substring_0_split (s hay : string) :
  substring 0 (String.length s) hay = s → ∃ post, hay = s +:+ post.
Proof.
  revert hay. induction s as [| c s IH]; intros hay; simpl.
  - intros _. now exists hay.
  - destruct hay as [| d hay]; [discriminate |].
    intros [= -> H]. destruct (IH hay H) as [post ->]. now exists post.
Qed.

Lemma substring_split (m : nat) (s hay : string) :
  substring m (String.length s) hay = s → ∃ pre post, hay = pre +:+ s +:+ post.
Proof.
  revert hay. induction m as [| m IH]; intros hay H.
  - destruct (substring_0_split s hay H) as [post ->]. now exists "", post.
  - destruct hay as [| c hay].
    + simpl in H. subst s. now exists "", "".
    + simpl in H. destruct (IH hay H) as (pre & post & ->).
      now exists (String c pre), post.
Qed.

(** [includes] is the substring test. *)
Lemma includes_substring (needle hay : string) :
  needle ≠ "" →
  Str.includes needle hay = true ↔ ∃ pre post, hay = pre +:+ needle +:+ post.
Proof.
  intros Hne. unfold Str.includes. split.
  - destruct (index 0 needle hay) as [m |] eqn:Hi; [| discriminate].
    intros _. apply index_correct1 in Hi. now apply substring_split in Hi.
  - intros (pre & post & ->).
    destruct (index 0 needle (pre +:+ needle +:+ post)) as [m |] eqn:Hi; [reflexivity |].
    exfalso.
    apply (index_correct3 0 (String.length pre) needle _ Hi Hne); [lia |].
    apply substring_middle.
Qed.

(** X25.  The caution match is a substring test on the lower-cased label:
    a label that contains soda or cola costs 10 points per serving whatever
    else it contains, and a label that contains none of the seven caution
    words costs nothing. *)
Theorem caution_by_substring (adj : gmap nat Qc) (score : Qc) (item : FoodItem) (index : nat) :
  let l := Str.lower (label item) in
  let m := servingMultiplier adj item index in
  ((∃ pre post, l = pre +:+ "soda" +:+ post) ∨ (∃ pre post, l = pre +:+ "cola" +:+ post) →
   caution adj score item index = score - Num.of_Z 10 * m)
  ∧ ((∀ word, word ∈ ["soda"; "cola"; "fries"; "chips"; "burger"; "pizza"; "dessert"] →
        ¬ ∃ pre post, l = pre +:+ word +:+ post) →
     caution adj score item index = score).
Proof.
  intros l m. unfold caution. fold l m. split.
  - intros [H | H]; apply includes_substring in H; try discriminate; rewrite H.
    + reflexivity.
    + now rewrite orb_true_r.
  - intros Hnone.
    assert (∀ word, word ∈ ["soda"; "cola"; "fries"; "chips"; "burger"; "pizza"; "dessert"] →
              Str.includes word l = false) as Hfalse.
    { intros word Hword. destruct (Str.includes word l) eqn:Hi; [| reflexivity].
      exfalso. apply (Hnone word Hword). apply includes_substring; [| exact Hi].
      intros ->. revert Hword. clear. intros H.
      repeat (apply elem_of_cons in H as [H | H]; [discriminate |]).
      inversion H. }
    rewrite !Hfalse by (repeat first [left | right]; fail). reflexivity.
Qed.

Lemma caution_by_substring_witness :
  (∃ pre post, Str.lower "Diet COLA (large)" = pre +:+ "cola" +:+ post)
  ∧ caution ∅ (Num.of_Z 90)
      (mkFoodItem "Diet COLA (large)" 1 (Num.of_Z 2) (mkNutritionInfo 0 0 0 0 None None None)) 0
    = Num.of_Z 70.
Proof.
  assert (∃ pre post, Str.lower "Diet COLA (large)" = pre +:+ "cola" +:+ post) as Hsub
    by (exists "diet ", " (large)"; reflexivity).
  split; [exact Hsub |].
  rewrite (proj1 (caution_by_substring ∅ (Num.of_Z 90)
                    (mkFoodItem "Diet COLA (large)" 1 (Num.of_Z 2)
                       (mkNutritionInfo 0 0 0 0 None None None)) 0) (or_intror Hsub)).
  by_evaluation.
Defined.

End Substrings.

(** * The upload card *)

Section UploadFacts.

Import UploadCard.

(** X26.  A drop with a rejected file never starts an analysis: the card
    shows an error, keeps its file and preview, and does not call
    [onFileSelect], also when the drop has accepted files too.  A drop with
    accepted files only selects the first one, clears the error and calls
    [onFileSelect] once, with that file. *)
Theorem drop_rejected_or_selected (createObjectURL : Route.File → string)
    (acceptedFiles : list Route.File) (rejectedFiles : list Rejection) (st : State) :
  let after := onDrop createObjectURL acceptedFiles rejectedFiles st in
  (rejectedFiles ≠ [] →
     after.2 = []
     ∧ error after.1 ≠ None
     ∧ selectedFile after.1 = selectedFile st
     ∧ preview after.1 = preview st)
  ∧ (∀ file rest, rejectedFiles = [] → acceptedFiles = file :: rest →
       after = (mkState (Some (createObjectURL file)) (Some file) None, [file]))
  ∧ (∀ file, file ∈ after.2 → rejectedFiles = [] ∧ head acceptedFiles = Some file).
Proof.
  intros after. subst after. unfold onDrop.
  destruct rejectedFiles as [| rejection rest'].
  - split; [intros H; contradiction |]. split.
    + intros file rest _ ->. reflexivity.
    + destruct acceptedFiles as [| f l]; simpl; intros file Hin; [inversion Hin |].
      apply list_elem_of_singleton in Hin as ->. auto.
  - split; [| split].
    + intros _. repeat case_bool_decide; simpl; auto.
    + intros file rest H. discriminate.
    + intros file Hin. repeat case_bool_decide; simpl in Hin; inversion Hin.
Qed.

Lemma drop_rejected_or_selected_witness :
  [mkRejection (Route.mkFile "big.png" "image/png" 9000000) ["file-too-large"]] ≠ []
  ∧ (onDrop (λ f, "blob:" +:+ Route.name f)
       [Route.mkFile "meal.jpg" "image/jpeg" 1024]
       [mkRejection (Route.mkFile "big.png" "image/png" 9000000) ["file-too-large"]]
       (mkState None None None)).2 = [].
Proof.
  assert ([mkRejection (Route.mkFile "big.png" "image/png" 9000000) ["file-too-large"]] ≠ [])
    as Hne by discriminate.
  split; [exact Hne |].
  exact (proj1 (proj1 (drop_rejected_or_selected (λ f, "blob:" +:+ Route.name f)
                         [Route.mkFile "meal.jpg" "image/jpeg" 1024] _
                         (mkState None None None)) Hne)).
Defined.

End UploadFacts.

Section TipsWitness.

Import Api.

Lemma make_tips_none_witness :
  added_sugar_g (dict 435 16 46 20 5 6 3) < Num.of_Z 20
  ∧ Num.of_Z 5 ≤ fiber_g (dict 435 16 46 20 5 6 3)
  ∧ Num.of_Z 15 ≤ protein_g (dict 435 16 46 20 5 6 3)
  ∧ make_tips (dict 435 16 46 20 5 6 3) = [].
Proof.
  assert (added_sugar_g (dict 435 16 46 20 5 6 3) < Num.of_Z 20) as Hs by by_evaluation.
  assert (Num.of_Z 5 ≤ fiber_g (dict 435 16 46 20 5 6 3)) as Hf by by_evaluation.
  assert (Num.of_Z 15 ≤ protein_g (dict 435 16 46 20 5 6 3)) as Hp by by_evaluation.
  split; [exact Hs |]. split; [exact Hf |]. split; [exact Hp |].
  apply (proj2 (make_tips_none (dict 435 16 46 20 5 6 3))). auto.
Defined.

End TipsWitness.

(** * Rounded arithmetic *)

Section Binary64Examples.

Import PrimFloat.

(** Decimal numbers are read as the kernel reads them (the literals are
    the hexadecimal forms of 0.3, 0.4, 0.2, 4.4, 0.75, 0.02 and -7.2). *)
Example binary64_reads :
  map Float64.value
      [ 0x1.3333333333333p-2; 0x1.999999999999ap-2; 0x1.999999999999ap-3;
        0x1.199999999999ap+2; 0x1.8p-1; 0x1.47ae147ae147bp-6;
        -0x1.ccccccccccccdp+2 ]%float
  = map (λ q, Some (Binary64.number q))
        [ 0.3; 0.4; 0.2; 4.4; 0.75; 0.02; -7.2 ]%Q.
Proof. by_evaluation. Qed.

(** Sums and products are rounded as the kernel rounds them, down to the
    subnormal numbers. *)
Example binary64_adds :
  map Float64.value
      [ (0x1.3333333333333p-2 + 0x1.999999999999ap-2)%float;
        (0x1.3333333333333p-2 + 0x1.999999999999ap-2 + 0x1.999999999999ap-3)%float;
        (0x1.999999999999ap-3 + 0x1.999999999999ap-2 + 0x1.3333333333333p-2)%float;
        (100 + -0x1.ccccccccccccdp+2)%float ]
  = map Some
        [ Rounded.add Binary64.round (Binary64.number 0.3) (Binary64.number 0.4);
          Rounded.add Binary64.round
            (Rounded.add Binary64.round (Binary64.number 0.3) (Binary64.number 0.4)) (Binary64.number 0.2);
          Rounded.add Binary64.round
            (Rounded.add Binary64.round (Binary64.number 0.2) (Binary64.number 0.4)) (Binary64.number 0.3);
          Rounded.add Binary64.round (Binary64.number 100) (Binary64.number (-7.2)) ].
Proof. by_evaluation. Qed.

Example binary64_multiplies :
  map Float64.value
      [ (0x1.199999999999ap+2 * 0x1.8p-1)%float;
        (0x1.47ae147ae147bp-6 * 220)%float;
        (0x1.3333333333333p-2 * 0x1p-1060)%float;
        (0x1p-600 * 0x1p-500)%float ]
  = map Some
        [ Rounded.mul Binary64.round (Binary64.number 4.4) (Binary64.number 0.75);
          Rounded.mul Binary64.round (Binary64.number 0.02) (Binary64.number 220);
          Rounded.mul Binary64.round (Binary64.number 0.3) (Binary64.pow2 (-1060));
          Rounded.mul Binary64.round (Binary64.pow2 (-600)) (Binary64.pow2 (-500)) ].
Proof. by_evaluation. Qed.

(** Without rounding, the rounded functions are the exact ones. *)
Example unrounded_is_exact (result : ResultCard.AnalysisResult) (adj : gmap nat Qc) :
  Rounded.adjustedNutrition (λ x, x) result adj = ResultCard.adjustedNutrition result adj
  ∧ Rounded.adjustedHealthScore (λ x, x) result adj = ResultCard.adjustedHealthScore result adj.
Proof. split; reflexivity. Qed.

(** Where the exact score is a tie, the rounding decides: in the scenario
    with the pizza at two servings and the salad at three quarters of one,
    the exact score is 96.5, which rounds to 97, and the binary64 score is
    just below, which rounds to 96. *)
Example score_at_a_tie :
  ResultCard.adjustedHealthScore Scenario.result Meals.edited = 97%Z
  ∧ Rounded.adjustedHealthScore Binary64.round Scenario.result Meals.edited = 96%Z.
Proof. split; vm_compute; reflexivity. Qed.

End Binary64Examples.

Section RoundedFacts.

Import ResultCard.

Lemma of_Z_mult (n m : Z) : Num.of_Z (n * m) = Num.of_Z n * Num.of_Z m.
Proof.
  apply Qc_is_canon. rewrite this_mult, !this_of_Z, inject_Z_mult. reflexivity.
Qed.

Lemma of_Z_4 : Num.of_Z 4 ≠ 0.
Proof. by_evaluation. Qed.

Lemma floor_of_Z (n : Z) : Num.floor (Num.of_Z n) = n.
Proof.
  rewrite (floor_this _ (inject_Z n)) by apply this_of_Z. apply Qfloor_Z.
Qed.

Lemma quarter_plus (a k : Z) :
  Rounded.quarter a + Rounded.quarter k = Rounded.quarter (a + k).
Proof. unfold Rounded.quarter. rewrite of_Z_plus. field. apply of_Z_4. Qed.

Lemma quarter_floor (k : Z) : Num.floor (Rounded.quarter k * Num.of_Z 4) = k.
Proof.
  replace (Rounded.quarter k * Num.of_Z 4) with (Num.of_Z k)
    by (unfold Rounded.quarter; field; apply of_Z_4).
  apply floor_of_Z.
Qed.

Lemma on_quarters_quarter (b k : Z) :
  (0 ≤ k ≤ b)%Z → Rounded.on_quarters b (Rounded.quarter k).
Proof.
  intros Hk. unfold Rounded.on_quarters. rewrite quarter_floor. auto.
Qed.

Lemma on_quarters_inv (b : Z) (x : Qc) :
  Rounded.on_quarters b x → ∃ k, (0 ≤ k ≤ b)%Z ∧ x = Rounded.quarter k.
Proof. intros [Hk Hx]. eauto. Qed.

Section Rounding.

Variables (rnd : Qc → Qc) (B : Z).
Hypothesis Hrnd : ∀ k, (0 ≤ k ≤ B)%Z → rnd (Rounded.quarter k) = Rounded.quarter k.

Lemma rounded_step (a b : Z) (t p : Qc) :
  Rounded.on_quarters a t → Rounded.on_quarters b p → (a + b ≤ B)%Z →
  Rounded.add rnd t (rnd p) = t + p ∧ Rounded.on_quarters (a + b) (t + p).
Proof.
  intros Ht Hp Hle.
  apply on_quarters_inv in Ht as (i & Hi & ->).
  apply on_quarters_inv in Hp as (k & Hk & ->).
  unfold Rounded.add. rewrite (Hrnd k) by lia.
  rewrite quarter_plus, Hrnd by lia.
  split; [reflexivity | apply on_quarters_quarter; lia].
Qed.

Lemma rounded_addItem (adj : gmap nat Qc) (a b : Z) (acc : Totals) (item : FoodItem) (i : nat) :
  Rounded.totals_on_quarters a acc →
  Rounded.item_on_quarters b (item, servingMultiplier adj item i) →
  (a + b ≤ B)%Z →
  Rounded.addItem rnd adj acc item i = addItem adj acc item i
  ∧ Rounded.totals_on_quarters (a + b) (addItem adj acc item i).
Proof.
  intros (T1 & T2 & T3 & T4 & T5 & T6 & T7) (P1 & P2 & P3 & P4 & P5 & P6 & P7) Hle.
  simpl in P1, P2, P3, P4, P5, P6, P7.
  destruct (rounded_step _ _ _ _ T1 P1 Hle) as [E1 Q1].
  destruct (rounded_step _ _ _ _ T2 P2 Hle) as [E2 Q2].
  destruct (rounded_step _ _ _ _ T3 P3 Hle) as [E3 Q3].
  destruct (rounded_step _ _ _ _ T4 P4 Hle) as [E4 Q4].
  destruct (rounded_step _ _ _ _ T5 P5 Hle) as [E5 Q5].
  destruct (rounded_step _ _ _ _ T6 P6 Hle) as [E6 Q6].
  destruct (rounded_step _ _ _ _ T7 P7 Hle) as [E7 Q7].
  split.
  - unfold Rounded.addItem, addItem, Rounded.mul. now rewrite E1, E2, E3, E4, E5, E6, E7.
  - unfold Rounded.totals_on_quarters, addItem. simpl. auto 10.
Qed.

Lemma rounded_reduce (adj : gmap nat Qc) (b : Z) (l : list FoodItem) :
  ∀ (i : nat) (acc : Totals) (a : Z),
    Rounded.totals_on_quarters a acc →
    (∀ j item, l !! j = Some item →
               Rounded.item_on_quarters b (item, servingMultiplier adj item (i + j))) →
    (a + Z.of_nat (length l) * b ≤ B)%Z →
    reduce (Rounded.addItem rnd adj) l i acc = reduce (addItem adj) l i acc.
Proof.
  induction l as [| item l IH]; intros i acc a Hacc Hitems Hle; [reflexivity |].
  pose proof (Hitems 0%nat item eq_refl) as Hitem. rewrite Nat.add_0_r in Hitem.
  assert (0 ≤ b)%Z as Hb by (destruct Hitem as [[? _] _]; lia).
  simpl length in Hle.
  destruct (rounded_addItem adj a b acc item i Hacc Hitem) as [Heq Hacc']; [nia |].
  simpl. rewrite Heq. apply (IH (S i) _ (a + b)%Z Hacc').
  - intros j x Hj. rewrite Nat.add_succ_comm. now apply (Hitems (S j)).
  - nia.
Qed.

Lemma rounded_exact (result : AnalysisResult) (adj : gmap nat Qc) (b : Z) :
  Forall (Rounded.item_on_quarters b) (Spec.detected result adj) →
  (Z.of_nat (length (items result)) * b ≤ B)%Z →
  Rounded.adjustedNutrition rnd result adj = adjustedNutrition result adj.
Proof.
  intros Hall Hle. unfold Rounded.adjustedNutrition, adjustedNutrition.
  apply (rounded_reduce adj b (items result) 0 _ 0%Z).
  - assert (Rounded.on_quarters 0 0) as H0.
    { assert (Rounded.quarter 0 = 0) as <- by by_evaluation.
      apply on_quarters_quarter. lia. }
    unfold Rounded.totals_on_quarters. simpl. auto 10.
  - intros j item Hj. simpl.
    rewrite Forall_lookup in Hall. apply (Hall j).
    unfold Spec.detected. rewrite list_lookup_imap, Hj. reflexivity.
  - lia.
Qed.

End Rounding.

Lemma of_Z_ne0 (n : Z) : n ≠ 0%Z → Num.of_Z n ≠ 0.
Proof.
  intros Hn Hz. apply Hn. change 0 with (Num.of_Z 0) in Hz.
  assert (n ≤ 0)%Z by (apply of_Z_le; rewrite Hz; apply Qcle_refl).
  assert (0 ≤ n)%Z by (apply of_Z_le; rewrite Hz; apply Qcle_refl).
  lia.
Qed.

Lemma quarter_positive (k : Z) : (0 < k)%Z → 0 < Rounded.quarter k.
Proof.
  intros Hk. apply of_Z_lt in Hk. unfold Rounded.quarter.
  unfold Qclt in *. rewrite this_div, !this_of_Z in *.
  change (this 0) with 0%Q. change (inject_Z 0) with 0%Q in Hk.
  apply Qlt_shift_div_l; [reflexivity | lra].
Qed.

(** The reduced fraction of [k] quarters has the denominator 1, 2 or 4. *)
Lemma quarter_fraction (k : Z) :
  let n := Qnum (Rounded.quarter k) in
  let d := Zpos (Qden (Rounded.quarter k)) in
  (n * 4 = k * d)%Z ∧ (d = 1 ∨ d = 2 ∨ d = 4)%Z.
Proof.
  intros n d.
  assert (n * 4 = k * d)%Z as Heq.
  { assert (this (Rounded.quarter k) == k # 4)%Q as H.
    { unfold Rounded.quarter. rewrite this_div, !this_of_Z.
      unfold Qeq. simpl. lia. }
    unfold Qeq in H. simpl in H. exact H. }
  split; [exact Heq |].
  assert (Z.gcd n d = 1)%Z as Hgcd
    by (apply Qred_identity2, (canon (Rounded.quarter k))).
  assert (d | 4)%Z as Hdiv.
  { apply (Z.gauss d n 4); [exists k; lia | now rewrite Z.gcd_comm]. }
  assert (0 < d)%Z as Hpos by (subst d; lia).
  pose proof (Z.divide_pos_le d 4 ltac:(lia) Hdiv) as Hle.
  destruct Hdiv as [c Hc].
  assert (d = 1 ∨ d = 2 ∨ d = 3 ∨ d = 4)%Z as [H | [H | [H | H]]] by lia;
    rewrite H in *; auto; lia.
Qed.

Lemma ilog2_quarter (k : Z) :
  (0 < k < 2 ^ 53)%Z → (Binary64.ilog2 (Rounded.quarter k) ≤ 50)%Z.
Proof.
  intros Hk. destruct (quarter_fraction k) as [Heq Hd].
  unfold Binary64.ilog2.
  set (n := Qnum (Rounded.quarter k)) in *.
  set (d := Zpos (Qden (Rounded.quarter k))) in *. clearbody n d.
  assert (Z.log2 n - Z.log2 d ≤ 50)%Z as Hl.
  { assert (0 < n)%Z as Hn by (destruct Hd as [-> | [-> | ->]]; lia).
    destruct Hd as [-> | [-> | ->]].
    - assert (Z.log2 n < 51)%Z by (apply Z.log2_lt_pow2; lia).
      change (Z.log2 1) with 0%Z. lia.
    - assert (Z.log2 n < 52)%Z by (apply Z.log2_lt_pow2; lia).
      change (Z.log2 2) with 1%Z. lia.
    - assert (Z.log2 n < 53)%Z by (apply Z.log2_lt_pow2; lia).
      change (Z.log2 4) with 2%Z. lia. }
  case_bool_decide; lia.
Qed.

(** A number of quarters below [2^51] is a binary64 number. *)
Lemma binary64_quarters (k : Z) :
  (0 ≤ k < 2 ^ 53)%Z → Binary64.round (Rounded.quarter k) = Rounded.quarter k.
Proof.
  intros Hk. destruct (decide (k = 0%Z)) as [-> | Hne].
  - assert (Rounded.quarter 0 = 0) as -> by by_evaluation. reflexivity.
  - assert (0 < Rounded.quarter k) as Hpos by (apply quarter_positive; lia).
    pose proof (ilog2_quarter k ltac:(lia)) as Hlog.
    unfold Binary64.round.
    rewrite bool_decide_eq_false_2
      by (intros Hz; rewrite Hz in Hpos; exact (Qclt_not_le _ _ Hpos (Qcle_refl 0))).
    rewrite (bool_decide_eq_false_2 (Rounded.quarter k < 0))
      by (apply Qcle_not_lt, Qclt_le_weak, Hpos).
    set (e := Z.max (-1074) (Binary64.ilog2 (Rounded.quarter k) - 52)).
    assert (-1074 ≤ e ≤ -2)%Z as He by (subst e; lia). clearbody e.
    unfold Binary64.pow2. destruct (0 <=? e)%Z eqn:Hsign; [lia |].
    assert (2 ^ (- e) = 4 * 2 ^ (- e - 2))%Z as ->.
    { replace (- e)%Z with (2 + (- e - 2))%Z at 1 by lia.
      rewrite Z.pow_add_r by lia. reflexivity. }
    assert (Num.of_Z (2 ^ (- e - 2)) ≠ 0) as Hm
      by (apply of_Z_ne0; pose proof (Z.pow_pos_nonneg 2 (- e - 2)); lia).
    assert (Rounded.quarter k / (1 / Num.of_Z (4 * 2 ^ (- e - 2)))
            = Num.of_Z (k * 2 ^ (- e - 2))) as ->.
    { unfold Rounded.quarter. rewrite !of_Z_mult. field.
      repeat split; first [exact Hm | apply of_Z_4 | by_evaluation]. }
    rewrite py_round_of_Z. unfold Rounded.quarter. rewrite !of_Z_mult. field.
    repeat split; first [exact Hm | apply of_Z_4 | by_evaluation].
Qed.

End RoundedFacts.

(** * Aggregation and the order of the items *)

Section AggregationOrder.

Import ResultCard.

Lemma service_totals (kept : list Api.Prediction) :
  (foldl Api.loop_body ([], Api.zero_totals) kept).2
  = Service.totals_of (map Service.item_of kept).
Proof.
  rewrite loop_items. simpl.
  now rewrite <- (map_map Service.item_of Api.nutrition), add_totals_sum, add_zero_totals.
Qed.

Lemma detected_length (result : AnalysisResult) (adj : gmap nat Qc) :
  length (Spec.detected result adj) = length (items result).
Proof. unfold Spec.detected. apply length_imap. Qed.

(** C9, as the specification states it, fails on the card: floating-point
    addition is not associative.  For the apple, the banana and the orange
    of the seed data, each at its one serving, the grams of fat add up to
    0.8999999999999999 in this order and to 0.9000000000000001 in the
    opposite order, the two binary64 numbers next to the sum of the three
    summands. *)
Lemma totals_depend_on_order :
  let forth := Rounded.adjustedNutrition Binary64.round Meals.fruits
                 (initialAdjustments Meals.fruits) in
  let back := Rounded.adjustedNutrition Binary64.round Meals.fruits_reversed
                (initialAdjustments Meals.fruits_reversed) in
  let sum := t_fat_g (adjustedNutrition Meals.fruits (initialAdjustments Meals.fruits)) in
  Spec.detected Meals.fruits (initialAdjustments Meals.fruits)
    ≡ₚ Spec.detected Meals.fruits_reversed (initialAdjustments Meals.fruits_reversed)
  ∧ t_fat_g forth = sum - Binary64.pow2 (-53)
  ∧ t_fat_g back = sum + Binary64.pow2 (-53)
  ∧ t_fat_g forth = Num.lit (8106479329266892 # 9007199254740992)
  ∧ t_fat_g back = Num.lit (8106479329266894 # 9007199254740992)
  ∧ forth ≠ back.
Proof.
  intros forth back sum.
  assert (t_fat_g forth = Num.lit (8106479329266892 # 9007199254740992)) as Hforth
    by by_evaluation.
  assert (t_fat_g back = Num.lit (8106479329266894 # 9007199254740992)) as Hback
    by by_evaluation.
  split.
  { match goal with |- ?l ≡ₚ ?l' =>
      assert (l' = reverse l) as -> by by_evaluation end.
    symmetry. apply reverse_Permutation. }
  split; [by_evaluation |]. split; [by_evaluation |].
  split; [exact Hforth |]. split; [exact Hback |].
  intros Heq. rewrite Heq, Hback in Hforth. revert Hforth. by_evaluation.
Qed.

(** C9, as the code has it.  Where every contribution of an item to the
    totals is a number of quarters (whole grams and calories at servings
    that are multiples of 0.25, as the service answers and the serving
    buttons set them) and the totals stay below [2^51], the additions and
    multiplications of the card are exact: its totals are, in every field,
    the sum over the detected items of the field times the serving
    multiplier, and they are the same for a result whose detected items are
    a permutation of these.  The totals of the service are, key by key, the
    sums of the nutrition of the items of the kept predictions, and the same
    for every order of the kept predictions. *)
Theorem aggregation_exact_on_quarters
    (b : Z) (result result' : AnalysisResult) (adj adj' : gmap nat Qc)
    (kept kept' : list Api.Prediction)
    (Hgrid : Forall (Rounded.item_on_quarters b) (Spec.detected result adj))
    (Hsize : (Z.of_nat (length (items result)) * b < 2 ^ 53)%Z)
    (Hitems : Spec.detected result adj ≡ₚ Spec.detected result' adj')
    (Hkept : kept ≡ₚ kept') :
  Rounded.adjustedNutrition Binary64.round result adj
  = Spec.aggregate (Spec.detected result adj)
  ∧ Rounded.adjustedNutrition Binary64.round result' adj'
    = Rounded.adjustedNutrition Binary64.round result adj
  ∧ (foldl Api.loop_body ([], Api.zero_totals) kept).2
    = Service.totals_of (map Service.item_of kept)
  ∧ (foldl Api.loop_body ([], Api.zero_totals) kept').2
    = (foldl Api.loop_body ([], Api.zero_totals) kept).2.
Proof.
  assert (∀ k, (0 ≤ k ≤ 2 ^ 53 - 1)%Z
               → Binary64.round (Rounded.quarter k) = Rounded.quarter k) as Hrnd
    by (intros k Hk; apply binary64_quarters; lia).
  assert (Rounded.adjustedNutrition Binary64.round result adj
          = Spec.aggregate (Spec.detected result adj)) as Hforth.
  { rewrite (rounded_exact _ _ Hrnd result adj b Hgrid) by lia.
    apply adjustedNutrition_aggregate. }
  assert (Rounded.adjustedNutrition Binary64.round result' adj'
          = Spec.aggregate (Spec.detected result' adj')) as Hback.
  { rewrite (rounded_exact _ _ Hrnd result' adj' b).
    - apply adjustedNutrition_aggregate.
    - now rewrite <- Hitems.
    - rewrite <- (detected_length result' adj'), <- Hitems, detected_length. lia. }
  split; [exact Hforth |]. split.
  - rewrite Hforth, Hback. symmetry. now apply aggregate_permutation.
  - split; [apply service_totals |].
    symmetry. now apply loop_totals_permutation.
Qed.

Lemma aggregation_exact_on_quarters_witness :
  Forall (Rounded.item_on_quarters 2280) (Spec.detected Scenario.result Meals.edited)
  ∧ (Z.of_nat (length (items Scenario.result)) * 2280 < 2 ^ 53)%Z
  ∧ Spec.detected Scenario.result Meals.edited
      ≡ₚ Spec.detected Scenario.result_swapped Meals.edited_swapped
  ∧ Scenario.preds ≡ₚ reverse Scenario.preds
  ∧ Rounded.adjustedNutrition Binary64.round Scenario.result_swapped Meals.edited_swapped
    = Rounded.adjustedNutrition Binary64.round Scenario.result Meals.edited
  ∧ t_calories (Rounded.adjustedNutrition Binary64.round Scenario.result Meals.edited)
    = Num.lit 682.5.
Proof.
  assert (Forall (Rounded.item_on_quarters 2280)
                 (Spec.detected Scenario.result Meals.edited)) as Hgrid.
  { repeat constructor; simpl; try lia; by_evaluation. }
  assert (Z.of_nat (length (items Scenario.result)) * 2280 < 2 ^ 53)%Z as Hsize
    by (simpl; lia).
  assert (Spec.detected Scenario.result Meals.edited
            ≡ₚ Spec.detected Scenario.result_swapped Meals.edited_swapped) as Hitems.
  { match goal with |- ?l ≡ₚ ?l' =>
      assert (l' = reverse l) as -> by by_evaluation end.
    symmetry. apply reverse_Permutation. }
  assert (Scenario.preds ≡ₚ reverse Scenario.preds) as Hkept
    by (symmetry; apply reverse_Permutation).
  split; [exact Hgrid |]. split; [exact Hsize |].
  split; [exact Hitems |]. split; [exact Hkept |].
  destruct (aggregation_exact_on_quarters 2280 _ _ _ _ _ _ Hgrid Hsize Hitems Hkept)
    as (_ & Heq & _).
  split; [exact Heq | by_evaluation].
Defined.

End AggregationOrder.

(** * The score of the service *)

Section ServiceScore.

(** C1, at a failing input.  For a meal of one soda the service answers
    with the score 92: its [health_score] has the base formula (92.2) and
    no caution penalty.  The score of the claim subtracts the penalty of the
    soda, 10 for its one serving: 82.2, rounded to 82, which is also what
    the card computes for this answer.  And [health_score] rounds a tie to
    the even neighbour: on totals of 10 g of added sugar and 1 g of
    protein, whose score is 98.5, it answers 98 where rounding half-up
    gives 99. *)
Theorem service_score_lacks_penalty :
  Api.analyze "image/jpeg" Meals.soda_only = inr Meals.soda_only_response
  ∧ Api.r_health_score Meals.soda_only_response = 92%Z
  ∧ Api.health_score (Api.dict 150 0 39 0 0 0 39) = 92%Z
  ∧ Num.Math_round
      (Spec.clamp (Spec.raw_score (Num.of_Z 150) 0 (Num.of_Z 39) 0 0 [("soda", 1)]))
    = 82%Z
  ∧ ResultCard.adjustedHealthScore
      (ResultCard.of_response Meals.soda_only_response)
      (ResultCard.initialAdjustments (ResultCard.of_response Meals.soda_only_response))
    = 82%Z
  ∧ Api.health_score Meals.sweet_drink = 98%Z
  ∧ Num.Math_round
      (Spec.clamp (Spec.raw_score (Num.of_Z 40) 0 (Num.of_Z 10) 0 (Num.of_Z 1) []))
    = 99%Z.
Proof.
  split; [by_evaluation |]. split; [reflexivity |].
  repeat split; vm_compute; reflexivity.
Qed.

End ServiceScore.
